(** * The PyUnit copy shipped with Cheetah ([Cheetah/Tests/unittest_local_copy.py])

    A shallow embedding of the test framework core: [TestResult] and its
    text subclass, [TestCase] (metadata and the run protocol), [TestSuite]
    and [TestLoader.getTestCaseNames] / [loadTestsFromTestCase], followed by
    the properties the design document states about them.

    Python objects are embedded as records; the collector a run mutates is
    threaded through a state monad, next to a log of the method calls that
    were made (the log is instrumentation only: no modelled method reads
    it). *)

From Stdlib Require Import Ascii.
From stdpp Require Import gmap strings list sorting pretty.

Set Default Proof Using "Type".
Set Warnings "-register-all".

(** ** Exception classes and [sys.exc_info()] *)

(** A class is its name together with the names of all its proper
    ancestors.  [except C] and [isinstance] look at the ancestors, the
    operator [is] at the class itself. *)
Record pyclass := PyClass { cls_name : string; cls_ancestors : list string }.

Global Instance pyclass_eq_dec : EqDecision pyclass.
Proof. solve_decision. Defined.

Definition issubclass (c d : pyclass) : bool :=
  bool_decide (cls_name d ∈ cls_name c :: cls_ancestors c).

Definition Exception : pyclass := PyClass "Exception" [].
Definition StandardError : pyclass := PyClass "StandardError" ["Exception"].
Definition AssertionError : pyclass :=
  PyClass "AssertionError" ["StandardError"; "Exception"].
Definition KeyboardInterrupt : pyclass :=
  PyClass "KeyboardInterrupt" ["StandardError"; "Exception"].
Definition ValueError : pyclass :=
  PyClass "ValueError" ["StandardError"; "Exception"].

(** A traceback object: a frame and [tb_next], which may be [None]. *)
Inductive traceback := Traceback (tb_frame : string) (tb_next : option traceback).

(** The triple returned by [sys.exc_info()] inside a handler. *)
Record exc_info := ExcInfo {
  exctype : pyclass;
  excvalue : string;
  tb : traceback
}.

Global Instance traceback_eq_dec : EqDecision traceback.
Proof.
  refine (fix go (x y : traceback) : Decision (x = y) :=
    match x, y with
    | Traceback f1 n1, Traceback f2 n2 =>
        cast_if_and (decide (f1 = f2))
          (match n1, n2 return Decision (n1 = n2) with
           | Some a, Some b => cast_if (go a b)
           | None, None => left _
           | _, _ => right _
           end)
    end); congruence.
Defined.

Global Instance exc_info_eq_dec : EqDecision exc_info.
Proof. solve_decision. Defined.

(** What calling a user-supplied hook or check does: it returns ([None])
    or raises, and then [sys.exc_info()] is the given triple. *)
Definition outcome := option exc_info.

(** ** [TestCase] instances *)

Record TestCase := mkTestCase {
  t_class : string;                (* str(self.__class__) *)
  _testMethodName : string;
  failureException : pyclass;
  _id : string;
  _description : string;
  _explanation : string;
  setUp : outcome;
  _testMethod : outcome;
  tearDown : outcome
}.

Global Instance TestCase_eq_dec : EqDecision TestCase.
Proof. solve_decision. Defined.

Definition id_ (self : TestCase) : string := _id self.
Definition describe (self : TestCase) : string := _description self.
Definition explain (self : TestCase) : string := _explanation self.
Definition setId (self : TestCase) (id : string) : TestCase :=
  mkTestCase (t_class self) (_testMethodName self) (failureException self)
    id (_description self) (_explanation self)
    (setUp self) (_testMethod self) (tearDown self).
Definition setDescription (self : TestCase) (descr : string) : TestCase :=
  mkTestCase (t_class self) (_testMethodName self) (failureException self)
    (_id self) descr (_explanation self)
    (setUp self) (_testMethod self) (tearDown self).
Definition setExplanation (self : TestCase) (expln : string) : TestCase :=
  mkTestCase (t_class self) (_testMethodName self) (failureException self)
    (_id self) (_description self) expln
    (setUp self) (_testMethod self) (tearDown self).

(** [TestCase.__exc_info]: the top traceback frame is dropped, except on
    Jython and except when it is the only one. *)
Definition __exc_info (sys_platform : string) (ei : exc_info) : exc_info :=
  if decide (String.substring 0 4 sys_platform = "java") then ei
  else match tb ei with
       | Traceback _ None => ei
       | Traceback _ (Some newtb) => ExcInfo (exctype ei) (excvalue ei) newtb
       end.

(** ** The collector: [TestResult] and [_TextTestResult] *)

(** The fields [_TextTestResult] adds, with the two streams of
    [StreamWrapper] as the text written so far. *)
Record TextFields := mkText {
  _verbosity : Z;
  _showAll : bool;
  _dots : bool;
  _explain : bool;
  _streamOut : string;
  _streamErr : string
}.

(** [text = None] is a plain [TestResult], [Some] a [_TextTestResult].
    [shouldStop] holds 0 or 1 in the source and is only tested for truth. *)
Record TestResult := mkResult {
  failures : list (TestCase * exc_info);
  errors : list (TestCase * exc_info);
  testsRun : nat;
  shouldStop : bool;
  text : option TextFields
}.

(** The calls made during a run. *)
Inductive call :=
  | CStartTest (t : TestCase)
  | CStopTest (t : TestCase)
  | CAddError (t : TestCase) (err : exc_info)
  | CAddFailure (t : TestCase) (err : exc_info)
  | CAddSuccess (t : TestCase)
  | CStop
  | CSetUp (t : TestCase)
  | CTestMethod (t : TestCase)
  | CTearDown (t : TestCase).

Global Instance call_eq_dec : EqDecision call.
Proof. solve_decision. Defined.

Record world := mkWorld {
  sys_platform : string;
  result : TestResult;
  calls : list call
}.

(** The state monad the methods live in. *)
Definition M (A : Type) : Type := world → A * world.

Global Instance M_ret : MRet M := λ A x w, (x, w).
Global Instance M_bind : MBind M := λ A B f m w, let '(x, w') := m w in f x w'.

Definition get_result : M TestResult := λ w, (result w, w).
Definition put_result (r : TestResult) : M unit :=
  λ w, (tt, mkWorld (sys_platform w) r (calls w)).
Definition get_platform : M string := λ w, (sys_platform w, w).
Definition log (c : call) : M unit :=
  λ w, (tt, mkWorld (sys_platform w) (result w) (calls w ++ [c])).
Definition exec {A} (m : M A) (w : world) : world := snd (m w).

Definition LF : ascii := "010"%char.
Definition CR : ascii := "013"%char.
Definition nl : string := String LF "".

(** *** [StreamWrapper] *)
Module StreamWrapper.
Definition write (txt : string) (f : TextFields) : TextFields :=
  mkText (_verbosity f) (_showAll f) (_dots f) (_explain f)
    (_streamOut f +:+ txt) (_streamErr f).
Definition writeln (lines : list string) (f : TextFields) : TextFields :=
  let f := foldl (λ f line, write (line +:+ nl) f) f lines in
  if decide (lines = []) then write nl f else f.
Definition writeErr (txt : string) (f : TextFields) : TextFields :=
  mkText (_verbosity f) (_showAll f) (_dots f) (_explain f)
    (_streamOut f) (_streamErr f +:+ txt).
Definition writelnErr (lines : list string) (f : TextFields) : TextFields :=
  let f := foldl (λ f line, writeErr (line +:+ nl) f) f lines in
  if decide (lines = []) then writeErr nl f else f.
End StreamWrapper.

(** *** The base class *)
Module TestResult.
Definition init : TestResult := mkResult [] [] 0 false None.
Definition startTest (test : TestCase) (r : TestResult) : TestResult :=
  mkResult (failures r) (errors r) (testsRun r + 1) (shouldStop r) (text r).
Definition stopTest (test : TestCase) (r : TestResult) : TestResult := r.
Definition addError (test : TestCase) (err : exc_info) (r : TestResult) :=
  mkResult (failures r) (errors r ++ [(test, err)]) (testsRun r)
    (shouldStop r) (text r).
Definition addFailure (test : TestCase) (err : exc_info) (r : TestResult) :=
  mkResult (failures r ++ [(test, err)]) (errors r) (testsRun r)
    (shouldStop r) (text r).
Definition addSuccess (test : TestCase) (r : TestResult) : TestResult := r.
Definition wasSuccessful (r : TestResult) : bool :=
  bool_decide (length (failures r) = length (errors r)) &&
  bool_decide (length (errors r) = 0).
Definition stop (r : TestResult) : TestResult :=
  mkResult (failures r) (errors r) (testsRun r) true (text r).
End TestResult.

Definition on_result (g : TestResult → TestResult) : M unit :=
  r ← get_result; put_result (g r).

(** [stop()] has the same body in both classes. *)
Definition stop : M unit := log CStop ;; on_result TestResult.stop.

Definition with_text (g : TextFields → TextFields) (r : TestResult) : TestResult :=
  mkResult (failures r) (errors r) (testsRun r) (shouldStop r) (g <$> text r).

(** *** The text subclass: the overriding methods *)
Module _TextTestResult.
Definition init (verbosity : Z) (explain : bool) : TestResult :=
  mkResult [] [] 0 false
    (Some (mkText verbosity (bool_decide (1 < verbosity)%Z)
             (bool_decide (verbosity = 1%Z)) explain "" "")).

Definition startTest (f : TextFields) (test : TestCase) : M unit :=
  r ← get_result;
  put_result (TestResult.startTest test r) ;;
  if _showAll f then
    r ← get_result;
    put_result (with_text
      (λ f, StreamWrapper.write " ... "
         (StreamWrapper.write (id_ test +:+ " (" +:+ describe test +:+ ")") f)) r)
  else mret tt.

Definition addSuccess (f : TextFields) (test : TestCase) : M unit :=
  r ← get_result;
  put_result (TestResult.addSuccess test r) ;;
  r ← get_result;
  if _showAll f then put_result (with_text (StreamWrapper.writeln ["ok"]) r)
  else if _dots f then put_result (with_text (StreamWrapper.write ".") r)
  else mret tt.

Definition addError (f : TextFields) (test : TestCase) (err : exc_info) : M unit :=
  r ← get_result;
  put_result (TestResult.addError test err r) ;;
  r ← get_result;
  (if _showAll f then put_result (with_text (StreamWrapper.writeln ["ERROR"]) r)
   else if _dots f then put_result (with_text (StreamWrapper.write "E") r)
   else mret tt) ;;
  if decide (exctype err = KeyboardInterrupt) then stop else mret tt.

Definition addFailure (f : TextFields) (test : TestCase) (err : exc_info) : M unit :=
  r ← get_result;
  put_result (TestResult.addFailure test err r) ;;
  r ← get_result;
  if _showAll f then put_result (with_text (StreamWrapper.writeln ["FAIL"]) r)
  else if _dots f then put_result (with_text (StreamWrapper.write "F") r)
  else mret tt.
End _TextTestResult.

(** *** Method calls on a collector: logged, then dispatched on its class *)
Definition startTest (test : TestCase) : M unit :=
  log (CStartTest test) ;;
  r ← get_result;
  match text r with
  | Some f => _TextTestResult.startTest f test
  | None => on_result (TestResult.startTest test)
  end.

Definition stopTest (test : TestCase) : M unit :=
  log (CStopTest test) ;; on_result (TestResult.stopTest test).

Definition addError (test : TestCase) (err : exc_info) : M unit :=
  log (CAddError test err) ;;
  r ← get_result;
  match text r with
  | Some f => _TextTestResult.addError f test err
  | None => on_result (TestResult.addError test err)
  end.

Definition addFailure (test : TestCase) (err : exc_info) : M unit :=
  log (CAddFailure test err) ;;
  r ← get_result;
  match text r with
  | Some f => _TextTestResult.addFailure f test err
  | None => on_result (TestResult.addFailure test err)
  end.

Definition addSuccess (test : TestCase) : M unit :=
  log (CAddSuccess test) ;;
  r ← get_result;
  match text r with
  | Some f => _TextTestResult.addSuccess f test
  | None => on_result (TestResult.addSuccess test)
  end.

(** ** [TestCase.__call__] *)

(** Calling a hook: the call is logged and its outcome returned. *)
Definition invoke (c : call) (o : outcome) : M outcome := log c ;; mret o.

Definition exc_info_here (ei : exc_info) : M exc_info :=
  p ← get_platform; mret (__exc_info p ei).

(** The body of the outer [try]; the [finally] clause follows it in
    [__call__] below.  The [return] after a failing [setUp] leaves the body
    through that clause as well. *)
Definition __call__body (self : TestCase) : M unit :=
  r ← invoke (CSetUp self) (setUp self);
  match r with
  | Some e => ei ← exc_info_here e; addError self ei
  | None =>
      r ← invoke (CTestMethod self) (_testMethod self);
      ok ← match r with
           | None => mret true
           | Some e =>
               if issubclass (exctype e) (failureException self)
               then ei ← exc_info_here e; addFailure self ei ;; mret false
               else ei ← exc_info_here e; addError self ei ;; mret false
           end;
      r ← invoke (CTearDown self) (tearDown self);
      ok ← match r with
           | None => mret ok
           | Some e => ei ← exc_info_here e; addError self ei ;; mret false
           end;
      if ok : bool then addSuccess self else mret tt
  end.

(** [__call__] returns [None] after a failing [setUp] and the collector
    otherwise; no caller in the module looks at the value, and it is left
    out here.  With [result=None] the run is on [defaultTestResult]. *)
Definition __call__ (self : TestCase) : M unit :=
  startTest self ;;
  __call__body self ;;
  stopTest self.

Definition run (self : TestCase) : M unit := __call__ self.

Definition defaultTestResult : TestResult := TestResult.init.

Definition countTestCases_case (self : TestCase) : nat := 1.

(** ** [TestCase._setupMetaData] *)

(** [str.strip()] with no argument: whitespace is removed at both ends. *)
Fixpoint lstrip (s : string) : string :=
  match s with
  | String a s' => if Ascii.is_space a then lstrip s' else s
  | EmptyString => EmptyString
  end.
Definition strip (s : string) : string :=
  String.rev (lstrip (String.rev (lstrip s))).

(** [str.splitlines()] of an 8-bit string: lines end at LF, CR or CR LF, the
    line ends are dropped and there is no empty line after the last one.
    [cur] is the current line, reversed. *)
Fixpoint splitlines_go (cur : string) (after_cr : bool) (s : string) : list string :=
  match s with
  | EmptyString => if decide (cur = "") then [] else [String.rev cur]
  | String c s' =>
      if decide (c = LF) then
        if after_cr then splitlines_go cur false s'
        else String.rev cur :: splitlines_go "" false s'
      else if decide (c = CR) then String.rev cur :: splitlines_go "" true s'
      else splitlines_go (String c cur) false s'
  end.
Definition splitlines (s : string) : list string := splitlines_go "" false s.

(** [x or '\n'] for a docstring, which is [None] when there is none. *)
Definition doc_or_nl (doc : option string) : string :=
  match doc with
  | Some d => if decide (d = "") then nl else d
  | None => nl
  end.

(** [lines[0].strip()]; [lines[0]] raises [IndexError] on an empty list. *)
Definition first_line (lines : list string) : option string :=
  strip <$> head lines.

(** ['\n'.join([ln.strip() for ln in lines[1:]]).strip()] when there is more
    than one line, [''] otherwise. *)
Definition rest_lines (lines : list string) : string :=
  if decide (1 < length lines)
  then strip (String.concat nl (strip <$> drop 1 lines))
  else "".

(** The metadata computed at construction, from the check's [__doc__]
    ([testDoc]), the fixture's ([fixtureDoc]), the class attribute [name]
    and the class. *)
Record MetaData := mkMetaData {
  md_id : string;
  md_description : string;
  md_explanation : string
}.

Definition _setupMetaData (testDoc fixtureDoc : option string)
    (name : option string) (class : string) (testMethodName : string)
    : option MetaData :=
  let testDocLines := splitlines (doc_or_nl testDoc) in
  testDescription ← first_line testDocLines;
  let testExplanation := rest_lines testDocLines in
  let fixtureDocLines := splitlines (doc_or_nl fixtureDoc) in
  fixtureDescription ← first_line fixtureDocLines;
  let fixtureExplanation := rest_lines fixtureDocLines in
  let name := match name with
              | Some n => if decide (n = "") then class else n
              | None => class
              end in
  let id := name +:+ "." +:+ testMethodName in
  let description :=
    if decide (fixtureDescription = "") then testDescription
    else fixtureDescription +:+ ", " +:+ testDescription in
  let explanation :=
    if decide (fixtureExplanation = "") then testExplanation
    else String.concat nl
           ["Fixture Explanation:"; "--------------------"; fixtureExplanation;
            ""; "Test Explanation:"; "-----------------"; testExplanation] in
  Some (mkMetaData id description explanation).

(** The description alone, as a function of the two docstrings. *)
Definition description_of (testDoc fixtureDoc : option string) : option string :=
  md_description <$> _setupMetaData testDoc fixtureDoc None "" "".

(** ** [TestSuite] *)

(** What a suite holds: test cases and nested suites.  [s_class] is
    [self.__class__.__name__] (a suite may be of a subclass of [TestSuite]);
    [suiteName] may be [None]. *)
Inductive Test :=
  | ACase (c : TestCase)
  | ASuite (s : TestSuite)
with TestSuite :=
  | mkTestSuite (s_class : string) (_tests : list Test)
      (_testMap : gmap string Test) (suiteName : option string).

Definition s_class (s : TestSuite) : string :=
  match s with mkTestSuite c _ _ _ => c end.
Definition _tests (s : TestSuite) : list Test :=
  match s with mkTestSuite _ l _ _ => l end.
Definition _testMap (s : TestSuite) : gmap string Test :=
  match s with mkTestSuite _ _ m _ => m end.
Definition suiteName (s : TestSuite) : option string :=
  match s with mkTestSuite _ _ _ n => n end.

(** [countTestCases], of a suite and of any item (a case counts 1). *)
Fixpoint countTestCases (self : TestSuite) : nat :=
  match self with
  | mkTestSuite _ tests _ _ =>
      (fix loop (tests : list Test) (cases : nat) : nat :=
         match tests with
         | [] => cases
         | test :: tests' =>
             loop tests' (cases + match test with
                                  | ACase c => countTestCases_case c
                                  | ASuite s => countTestCases s
                                  end)
         end) tests 0
  end.

Definition Test_countTestCases (test : Test) : nat :=
  match test with
  | ACase c => countTestCases_case c
  | ASuite s => countTestCases s
  end.

(** The key [addTest] files a child under: the name of a suite that has a
    (non-empty) one, the method name of a test case, the name of the
    child's class otherwise. *)
Definition key_of (test : Test) : string :=
  match test with
  | ASuite s =>
      match suiteName s with
      | Some n => if decide (n = "") then s_class s else n
      | None => s_class s
      end
  | ACase c => _testMethodName c
  end.

Definition addTest (self : TestSuite) (test : Test) : TestSuite :=
  mkTestSuite (s_class self) (_tests self ++ [test])
    (<[key_of test := test]> (_testMap self)) (suiteName self).

Definition addTests (self : TestSuite) (tests : list Test) : TestSuite :=
  foldl addTest self tests.

(** [TestSuite.__init__], for the class [TestSuite] itself or a subclass. *)
Definition TestSuite_init (class : string) (tests : list Test)
    (suiteName : option string) : TestSuite :=
  addTests (mkTestSuite class [] ∅ suiteName) tests.

(** [self._testMap[name]]: [None] stands for the [KeyError]. *)
Definition getTestForName (self : TestSuite) (name : string) : option Test :=
  _testMap self !! name.

(** [TestSuite.__call__]: the loop leaves at the first child it reaches
    with the stop flag set. *)
Fixpoint TestSuite__call__ (self : TestSuite) : M unit :=
  match self with
  | mkTestSuite _ tests _ _ =>
      (fix loop (tests : list Test) : M unit :=
         match tests with
         | [] => mret tt
         | test :: tests' =>
             r ← get_result;
             if shouldStop r then mret tt
             else match test with
                  | ACase c => __call__ c
                  | ASuite s => TestSuite__call__ s
                  end ;; loop tests'
         end) tests
  end.

Definition TestSuite_run (self : TestSuite) : M unit := TestSuite__call__ self.

(** [test(result)] for a child of either kind. *)
Definition Test__call__ (test : Test) : M unit :=
  match test with
  | ACase c => __call__ c
  | ASuite s => TestSuite__call__ s
  end.

(** The loop of [TestSuite.__call__] over a list of children. *)
Fixpoint run_tests (tests : list Test) : M unit :=
  match tests with
  | [] => mret tt
  | test :: tests' =>
      r ← get_result;
      if shouldStop r then mret tt
      else Test__call__ test ;; run_tests tests'
  end.

(** The test cases below an item, in the order of the tree (used to state
    the order of a run). *)
Fixpoint cases_of (self : TestSuite) : list TestCase :=
  match self with
  | mkTestSuite _ tests _ _ =>
      (fix go (tests : list Test) : list TestCase :=
         match tests with
         | [] => []
         | ACase c :: tests' => c :: go tests'
         | ASuite s :: tests' => cases_of s ++ go tests'
         end) tests
  end.

Definition Test_cases (test : Test) : list TestCase :=
  match test with
  | ACase c => [c]
  | ASuite s => cases_of s
  end.

(** ** Fixture classes and [TestLoader] *)

(** An entry of a class namespace: its [__doc__] and what calling it does. *)
Record method := mkMethod { m_doc : option string; m_body : outcome }.

(** A (classic) class deriving from [TestCase]: [__name__], [__module__],
    [__doc__], the class attributes [name] and [failureException] where the
    class body sets them, the other entries of the class namespace, and
    [__bases__]. *)
Inductive fixture :=
  | Fixture (c_name c_module : string) (c_doc : option string)
      (c_fixture_name : option string) (c_failureException : option pyclass)
      (c_dict : gmap string method) (c_bases : list fixture).

Definition c_name (c : fixture) : string :=
  match c with Fixture n _ _ _ _ _ _ => n end.
Definition c_str (c : fixture) : string :=
  match c with Fixture n m _ _ _ _ _ => m +:+ "." +:+ n end.
Definition c_doc (c : fixture) : option string :=
  match c with Fixture _ _ d _ _ _ _ => d end.
Definition c_dict (c : fixture) : gmap string method :=
  match c with Fixture _ _ _ _ _ d _ => d end.
Definition c_bases (c : fixture) : list fixture :=
  match c with Fixture _ _ _ _ _ _ b => b end.

(** Attribute lookup on a classic class: the class itself, then its bases
    depth first, from left to right. *)
Fixpoint lookup_mro {A} (own : fixture → option A) (c : fixture) : option A :=
  match own c with
  | Some x => Some x
  | None =>
      match c with
      | Fixture _ _ _ _ _ _ bases =>
          (fix first (bs : list fixture) : option A :=
             match bs with
             | [] => None
             | b :: bs' =>
                 match lookup_mro own b with
                 | Some x => Some x
                 | None => first bs'
                 end
             end) bases
      end
  end.

Definition getattr (c : fixture) (n : string) : option method :=
  lookup_mro (λ c, c_dict c !! n) c.

(** The names [dir(cls)] lists: those of the class and, recursively, of its
    bases. *)
Fixpoint dir_names (c : fixture) : gset string :=
  match c with
  | Fixture _ _ _ _ _ d bases =>
      dom d ∪ (fix go (bs : list fixture) : gset string :=
                 match bs with
                 | [] => ∅
                 | b :: bs' => dir_names b ∪ go bs'
                 end) bases
  end.

(** [dir(cls)]: each name once, in alphabetical order. *)
Definition dir (c : fixture) : list string :=
  merge_sort String.le (elements (dir_names c)).

(** The builtin [cmp] on strings. *)
Definition cmp (x y : string) : Z :=
  match String.compare x y with
  | Lt => (-1)%Z
  | Eq => 0%Z
  | Gt => 1%Z
  end.

(** [cmpfunc x y <= 0]: [x] is not after [y]. *)
Definition cmp_le (cmpfunc : string → string → Z) : relation string :=
  λ x y, (cmpfunc x y ≤ 0)%Z.

Global Instance cmp_le_dec cmpfunc : RelDecision (cmp_le cmpfunc).
Proof. intros x y. unfold cmp_le. apply _. Defined.

(** [l.sort(cmpfunc)] is stable: a name moves in front of a name that was
    before it only when [cmpfunc] puts it strictly before, that is when
    [cmpfunc later earlier < 0].  [sort_insert cmpfunc x l] puts [x], which
    was before all of [l], into the sorted [l].  For a [cmpfunc] that
    orders the names consistently this is the list [sort] leaves; for any
    other one [sort] still leaves a permutation, but which one depends on
    its algorithm. *)
Fixpoint sort_insert (cmpfunc : string → string → Z) (x : string)
    (l : list string) : list string :=
  match l with
  | [] => [x]
  | y :: l' =>
      if decide (cmpfunc y x < 0)%Z then y :: sort_insert cmpfunc x l'
      else x :: l
  end.

Definition sort_with (cmpfunc : string → string → Z) (l : list string) : list string :=
  foldr (sort_insert cmpfunc) [] l.

Record TestLoader := mkTestLoader {
  testMethodPrefix : string;
  sortTestMethodsUsing : option (string → string → Z);
  suiteClass : string
}.

Definition defaultTestLoader : TestLoader :=
  mkTestLoader "test" (Some cmp) "TestSuite".

(** [n[:len(p)] == p] *)
Definition has_prefix (p n : string) : bool :=
  bool_decide (String.substring 0 (String.length p) n = p).

(** The inner loop of [getTestCaseNames]: a name of a base class is appended
    unless it is there already. *)
Definition append_missing (testFnNames inherited : list string) : list string :=
  foldl (λ acc testFnName,
           if decide (testFnName ∈ acc) then acc else acc ++ [testFnName])
        testFnNames inherited.

Fixpoint getTestCaseNames (self : TestLoader) (testCaseClass : fixture) : list string :=
  let testFnNames :=
    filter (λ n, has_prefix (testMethodPrefix self) n = true) (dir testCaseClass) in
  let testFnNames :=
    match testCaseClass with
    | Fixture _ _ _ _ _ _ bases =>
        (fix over_bases (bs : list fixture) (acc : list string) : list string :=
           match bs with
           | [] => acc
           | baseclass :: bs' =>
               over_bases bs' (append_missing acc (getTestCaseNames self baseclass))
           end) bases testFnNames
    end in
  match sortTestMethodsUsing self with
  | Some cmpfunc => sort_with cmpfunc testFnNames
  | None => testFnNames
  end.

(** [testCaseClass(methodName)], that is [TestCase.__init__]: [None] is the
    [ValueError] of [_setupTestMethod].  [setUp] and [tearDown] default to
    the empty hooks of [TestCase]. *)
Definition instantiate (c : fixture) (methodName : string) : option TestCase :=
  m ← getattr c methodName;
  md ← _setupMetaData (m_doc m) (c_doc c)
         (lookup_mro (λ c, match c with Fixture _ _ _ n _ _ _ => n end) c)
         (c_str c) methodName;
  Some (mkTestCase (c_str c) methodName
          (default AssertionError
             (lookup_mro (λ c, match c with Fixture _ _ _ _ e _ _ => e end) c))
          (md_id md) (md_description md) (md_explanation md)
          (from_option m_body None (getattr c "setUp"))
          (m_body m)
          (from_option m_body None (getattr c "tearDown"))).

Definition loadTestsFromTestCase (self : TestLoader) (testCaseClass : fixture)
    : option TestSuite :=
  tests ← mapM (instantiate testCaseClass) (getTestCaseNames self testCaseClass);
  Some (TestSuite_init (suiteClass self) (ACase <$> tests)
          (Some (c_name testCaseClass))).

(** ** Vocabulary of the properties *)

(** The calls a computation adds to the log. *)
Definition calls_during {A} (m : M A) (w : world) : list call :=
  drop (length (calls w)) (calls (exec m w)).

(** An outcome recorded against [t]. *)
Definition is_outcome_for (t : TestCase) (c : call) : bool :=
  match c with
  | CAddSuccess t' | CAddFailure t' _ | CAddError t' _ => bool_decide (t' = t)
  | _ => false
  end.

Definition outcomes_recorded (t : TestCase) (l : list call) : nat :=
  length (filter (λ c, is_outcome_for t c = true) l).

(** Whether a collector is a [_TextTestResult]. *)
Definition is_text (r : TestResult) : bool :=
  match text r with
  | Some _ => true
  | None => false
  end.

(** The calls [addError] makes: the text collector goes on to [stop()] when
    the class of the exception is [KeyboardInterrupt] itself. *)
Definition addError_calls (txt : bool) (t : TestCase) (ei : exc_info) : list call :=
  CAddError t ei ::
  (if txt && bool_decide (exctype ei = KeyboardInterrupt) then [CStop] else []).

(** The calls of one run of a test case, spelled out: [r] tells whether
    the collector is the text one and [p] is the platform. *)
Definition check_calls (r : bool) (p : string) (t : TestCase) : list call :=
  match _testMethod t with
  | None => []
  | Some e =>
      if issubclass (exctype e) (failureException t)
      then [CAddFailure t (__exc_info p e)]
      else addError_calls r t (__exc_info p e)
  end.

Definition tearDown_calls (r : bool) (p : string) (t : TestCase) : list call :=
  match tearDown t with
  | None => []
  | Some e => addError_calls r t (__exc_info p e)
  end.

Definition success_calls (t : TestCase) : list call :=
  match _testMethod t, tearDown t with
  | None, None => [CAddSuccess t]
  | _, _ => []
  end.

Definition run_calls (r : bool) (p : string) (t : TestCase) : list call :=
  [CStartTest t; CSetUp t] ++
  match setUp t with
  | Some e => addError_calls r t (__exc_info p e)
  | None =>
      [CTestMethod t] ++ check_calls r p t ++
      [CTearDown t] ++ tearDown_calls r p t ++ success_calls t
  end ++ [CStopTest t].

(** The pairs one run appends to [errors] and to [failures]. *)
Definition raised_by (p : string) (t : TestCase) (o : outcome) : list (TestCase * exc_info) :=
  match o with
  | Some e => [(t, __exc_info p e)]
  | None => []
  end.

Definition is_failure (t : TestCase) (o : outcome) : bool :=
  match o with
  | Some e => issubclass (exctype e) (failureException t)
  | None => false
  end.

Definition new_errors (p : string) (t : TestCase) : list (TestCase * exc_info) :=
  match setUp t with
  | Some e => raised_by p t (setUp t)
  | None =>
      (if is_failure t (_testMethod t) then [] else raised_by p t (_testMethod t))
      ++ raised_by p t (tearDown t)
  end.

Definition new_failures (p : string) (t : TestCase) : list (TestCase * exc_info) :=
  match setUp t with
  | Some e => []
  | None => if is_failure t (_testMethod t) then raised_by p t (_testMethod t) else []
  end.

Definition plain_world : world := mkWorld "linux2" TestResult.init [].
Definition text_world : world :=
  mkWorld "linux2" (_TextTestResult.init 1 false) [].

Definition tb0 : traceback := Traceback "unittest" (Some (Traceback "check" None)).
Definition raising (c : pyclass) (msg : string) : outcome :=
  Some (ExcInfo c msg tb0).
Definition case0 (su tm td : outcome) : TestCase :=
  mkTestCase "mod.Demo" "testA" AssertionError "mod.Demo.testA" "" "" su tm td.

(** ** Vocabulary of the proofs and the inputs of the examples *)

(** [step w w' cs fs es n]: from [w] to [w'] the calls [cs] were made, [fs]
    and [es] were appended to the failures and errors, [n] tests were
    counted, the stop flag was raised exactly if [stop()] is among the
    calls, and the collector and platform are otherwise the same. *)
Definition step (w w' : world) (cs : list call)
    (fs es : list (TestCase * exc_info)) (n : nat) : Prop :=
  calls w' = calls w ++ cs ∧
  sys_platform w' = sys_platform w ∧
  failures (result w') = failures (result w) ++ fs ∧
  errors (result w') = errors (result w) ++ es ∧
  testsRun (result w') = testsRun (result w) + n ∧
  shouldStop (result w') = shouldStop (result w) || bool_decide (CStop ∈ cs) ∧
  is_text (result w') = is_text (result w).

(** [runs txt p m v cs fs es n]: started on a collector of kind [txt] on
    platform [p], [m] returns [v] and has the effect above. *)
Definition runs {A} (txt : bool) (p : string) (m : M A) (v : A) (cs : list call)
    (fs es : list (TestCase * exc_info)) (n : nat) : Prop :=
  ∀ w, is_text (result w) = txt → sys_platform w = p →
       (m w).1 = v ∧ step w (m w).2 cs fs es n.

(** The number of outcomes one run records against its test case. *)
Definition outcome_count (t : TestCase) : nat :=
  match setUp t, _testMethod t, tearDown t with
  | Some _, _, _ => 1
  | None, Some _, Some _ => 2
  | None, _, _ => 1
  end.

Definition boom : outcome := raising ValueError "boom".
Definition failed_check : outcome := raising AssertionError "x != y".

(** A check that fails an assertion, followed by a [tearDown] that raises. *)
Definition failing_then_broken : TestCase := case0 None failed_check boom.

(** A class derived from [AssertionError], and a check that raises it. *)
Definition SubAssertion : pyclass :=
  PyClass "SubAssertion" ["AssertionError"; "StandardError"; "Exception"].
Definition raises_subclass : TestCase :=
  case0 None (raising SubAssertion "x != y") None.

(** The first line of a docstring, stripped: the part of the description a
    docstring contributes. *)
Definition part_of (doc : option string) : option string :=
  first_line (splitlines (doc_or_nl doc)).

(** Induction on a suite with the property assumed of every nested suite
    among its children. *)
Definition holds_of_suite (Q : TestSuite → Prop) (test : Test) : Prop :=
  match test with
  | ACase _ => True
  | ASuite s => Q s
  end.

Section TestSuite_induction.
Context (Q : TestSuite → Prop).
Hypothesis Hmk : ∀ cls tests m n,
  Forall (holds_of_suite Q) tests → Q (mkTestSuite cls tests m n).

Fixpoint TestSuite_nested_ind (s : TestSuite) : Q s :=
  match s with
  | mkTestSuite cls tests m n =>
      Hmk cls tests m n
        ((fix go (l : list Test) : Forall (holds_of_suite Q) l :=
            match l with
            | [] => List.Forall_nil _
            | test :: l' =>
                @List.Forall_cons _ (holds_of_suite Q) test l'
                  (match test return holds_of_suite Q test with
                   | ACase _ => I
                   | ASuite s' => TestSuite_nested_ind s'
                   end) (go l')
            end) tests)
  end.
End TestSuite_induction.

(** The cases below a list of children, and the counting loop, as
    functions of the list. *)
Definition flat_cases (tests : list Test) : list TestCase :=
  flat_map Test_cases tests.

Fixpoint count_loop (tests : list Test) (cases : nat) : nat :=
  match tests with
  | [] => cases
  | test :: tests' => count_loop tests' (cases + Test_countTestCases test)
  end.

Definition suite_A : TestSuite :=
  TestSuite_init "TestSuite" [ACase (case0 None None None)] None.
Definition suite_B : TestSuite :=
  TestSuite_init "TestSuite" [ACase (case0 None failed_check None)] None.

(** The calls of a suite run, spelled out: the cases below the suite are
    run in order, up to and including the first one whose run calls
    [stop()]; none is run when the flag is set at the start. *)
Fixpoint suite_calls (txt : bool) (p : string) (stopped : bool)
    (ts : list TestCase) : list call :=
  match ts with
  | [] => []
  | t :: ts' =>
      if stopped then []
      else run_calls txt p t ++
           suite_calls txt p (bool_decide (CStop ∈ run_calls txt p t)) ts'
  end.

(** The loop of [TestSuite.__call__], given the same of the nested suites. *)
Definition suite_runs (s : TestSuite) : Prop :=
  ∀ w, ∃ fs es n,
    step w (exec (TestSuite__call__ s) w)
      (suite_calls (is_text (result w)) (sys_platform w)
         (shouldStop (result w)) (cases_of s)) fs es n.

(** A scan of a sequence of calls that tracks the stop flag: it fails at a
    [startTest] made while the flag is set. *)
Fixpoint no_start_when_stopped (stopped : bool) (cs : list call) : bool :=
  match cs with
  | [] => true
  | CStop :: cs' => no_start_when_stopped true cs'
  | CStartTest _ :: cs' => negb stopped && no_start_when_stopped stopped cs'
  | _ :: cs' => no_start_when_stopped stopped cs'
  end.

(** A check interrupted from the keyboard, and the text collector after
    its run. *)
Definition interrupted : TestCase :=
  case0 None (raising KeyboardInterrupt "") None.
Definition stopped_world : world := exec (__call__ interrupted) text_world.

Definition suite_AB : TestSuite :=
  TestSuite_init "TestSuite"
    [ACase interrupted; ASuite suite_A; ACase (case0 None None None)] None.

Definition interrupt : exc_info := ExcInfo KeyboardInterrupt "" tb0.

Section fixture_induction.
Context (Q : fixture → Prop).
Hypothesis Hmk : ∀ n m d fn fe dict bases,
  Forall Q bases → Q (Fixture n m d fn fe dict bases).

Fixpoint fixture_nested_ind (c : fixture) : Q c :=
  match c with
  | Fixture n m d fn fe dict bases =>
      Hmk n m d fn fe dict bases
        ((fix go (l : list fixture) : Forall Q l :=
            match l with
            | [] => List.Forall_nil _
            | b :: l' => @List.Forall_cons _ Q b l' (fixture_nested_ind b) (go l')
            end) bases)
  end.
End fixture_induction.

Definition maybe_sort (self : TestLoader) (l : list string) : list string :=
  match sortTestMethodsUsing self with
  | Some cmpfunc => sort_with cmpfunc l
  | None => l
  end.

(** A fixture with the checks [testB], [testA], [testC] and a helper method,
    and a fixture derived from it that overrides [testB] and adds [test0]. *)
Definition ok_method : method := mkMethod None None.
Definition demo_fixture : fixture :=
  Fixture "Demo" "mod" None None None
    (<["testB" := ok_method]> (<["testA" := ok_method]>
      (<["testC" := ok_method]> (<["helper" := ok_method]> ∅)))) [].
Definition demo_sub : fixture :=
  Fixture "Sub" "mod" None None None
    (<["testB" := mkMethod (Some "overridden") None]>
      (<["test0" := ok_method]> ∅)) [demo_fixture].

(** A fixture with a passing check and one that fails with ["x != y"]. *)
Definition two_checks : fixture :=
  Fixture "Two" "mod" (Some "Two checks") None None
    (<["testPass" := mkMethod (Some "passes") None]>
      (<["testFail" := mkMethod None failed_check]> ∅)) [].

(** ** Further vocabulary: what a suite run executes *)

(** Whether the three hooks of a test case all return. *)
Definition passes (t : TestCase) : bool :=
  bool_decide (setUp t = None) && bool_decide (_testMethod t = None) &&
  bool_decide (tearDown t = None).

(** The test cases a suite run executes, out of the cases [ts] below the
    suite: those up to and including the first whose run calls [stop()]. *)
Fixpoint executed (txt : bool) (p : string) (stopped : bool)
    (ts : list TestCase) : list TestCase :=
  match ts with
  | [] => []
  | t :: ts' =>
      if stopped then []
      else t :: executed txt p (bool_decide (CStop ∈ run_calls txt p t)) ts'
  end.

(** Whether the run of [t] on a collector of kind [txt] hands a
    [KeyboardInterrupt] to [addError]. *)
Definition is_interrupt (o : outcome) : bool :=
  match o with
  | Some e => bool_decide (exctype e = KeyboardInterrupt)
  | None => false
  end.

Definition interrupts (txt : bool) (t : TestCase) : bool :=
  txt &&
  match setUp t with
  | Some _ => is_interrupt (setUp t)
  | None =>
      (is_interrupt (_testMethod t) && negb (is_failure t (_testMethod t)))
      || is_interrupt (tearDown t)
  end.

(** The effect of the loop of [TestSuite.__call__] in full. *)
Definition suite_runs_fully (s : TestSuite) : Prop :=
  ∀ w,
    let ex := executed (is_text (result w)) (sys_platform w)
                (shouldStop (result w)) (cases_of s) in
    step w (exec (TestSuite__call__ s) w)
      (suite_calls (is_text (result w)) (sys_platform w)
         (shouldStop (result w)) (cases_of s))
      (mjoin (new_failures (sys_platform w) <$> ex))
      (mjoin (new_errors (sys_platform w) <$> ex)) (length ex).

(** ** [TestCase.debug] and [TestSuite.debug] *)

(** [debug] runs the hooks without a collector: an exception leaves
    [debug] at once, and the value returned here is that exception. *)
Definition debug (self : TestCase) : M outcome :=
  r ← invoke (CSetUp self) (setUp self);
  match r with
  | Some e => mret (Some e)
  | None =>
      r ← invoke (CTestMethod self) (_testMethod self);
      match r with
      | Some e => mret (Some e)
      | None => invoke (CTearDown self) (tearDown self)
      end
  end.

Fixpoint TestSuite_debug (self : TestSuite) : M outcome :=
  match self with
  | mkTestSuite _ tests _ _ =>
      (fix loop (tests : list Test) : M outcome :=
         match tests with
         | [] => mret None
         | test :: tests' =>
             r ← match test with
                 | ACase c => debug c
                 | ASuite s => TestSuite_debug s
                 end;
             match r with
             | Some e => mret (Some e)
             | None => loop tests'
             end
         end) tests
  end.

Definition Test_debug (test : Test) : M outcome :=
  match test with
  | ACase c => debug c
  | ASuite s => TestSuite_debug s
  end.

(** The loop of [TestSuite.debug] over a list of children. *)
Fixpoint debug_tests (tests : list Test) : M outcome :=
  match tests with
  | [] => mret None
  | test :: tests' =>
      r ← Test_debug test;
      match r with
      | Some e => mret (Some e)
      | None => debug_tests tests'
      end
  end.

(** The first exception the hooks of a test case raise, in the order
    [setUp], check, [tearDown]. *)
Definition first_raised (t : TestCase) : outcome :=
  match setUp t with
  | Some e => Some e
  | None =>
      match _testMethod t with
      | Some e => Some e
      | None => tearDown t
      end
  end.

(** The hook calls of [debug]. *)
Definition debug_calls (t : TestCase) : list call :=
  CSetUp t ::
  match setUp t with
  | Some _ => []
  | None =>
      CTestMethod t ::
      match _testMethod t with
      | Some _ => []
      | None => [CTearDown t]
      end
  end.

(** The cases [TestSuite.debug] reaches: those up to and including the
    first with a hook that raises. *)
Fixpoint debugged (ts : list TestCase) : list TestCase :=
  match ts with
  | [] => []
  | t :: ts' =>
      t :: match first_raised t with
           | Some _ => []
           | None => debugged ts'
           end
  end.

(** How often a call occurs in a sequence of calls. *)
Definition count_call (c : call) (l : list call) : nat :=
  length (filter (λ c', c' = c) l).

(** What [TestSuite.debug] propagates: the first exception of the first
    case with a hook that raises. *)
Fixpoint debug_outcome (ts : list TestCase) : outcome :=
  match ts with
  | [] => None
  | t :: ts' =>
      match first_raised t with
      | Some e => Some e
      | None => debug_outcome ts'
      end
  end.

Definition debugs (m : M outcome) (ts : list TestCase) : Prop :=
  ∀ w, m w = (debug_outcome ts,
              mkWorld (sys_platform w) (result w)
                (calls w ++ mjoin (debug_calls <$> debugged ts))).

(** ** The assertion methods of [TestCase] *)

(** [raise self.failureException, msg], with [tb] the traceback at that
    point; a message [None] gives an exception without text. *)
Definition raise_failure (self : TestCase) (msg : option string)
    (tb : traceback) : outcome :=
  Some (ExcInfo (failureException self) (default "" msg) tb).

(** [msg or dflt]: [dflt] when [msg] is [None] or empty. *)
Definition msg_or (msg : option string) (dflt : string) : string :=
  match msg with
  | Some m => if decide (m = "") then dflt else m
  | None => dflt
  end.

Definition fail (self : TestCase) (msg : option string) (tb : traceback) : outcome :=
  raise_failure self msg tb.

Definition failIf (self : TestCase) (expr : bool) (msg : option string)
    (tb : traceback) : outcome :=
  if expr then raise_failure self msg tb else None.

Definition failUnless (self : TestCase) (expr : bool) (msg : option string)
    (tb : traceback) : outcome :=
  if negb expr then raise_failure self msg tb else None.

(** The comparisons are those of the values' type, and [str] their ['%s']
    text. *)
Definition failUnlessEqual {A} `{EqDecision A} (str : A → string)
    (self : TestCase) (first second : A) (msg : option string)
    (tb : traceback) : outcome :=
  if decide (first ≠ second)
  then raise_failure self
         (Some (msg_or msg (str first +:+ " != " +:+ str second))) tb
  else None.

Definition failIfEqual {A} `{EqDecision A} (str : A → string)
    (self : TestCase) (first second : A) (msg : option string)
    (tb : traceback) : outcome :=
  if decide (first = second)
  then raise_failure self
         (Some (msg_or msg (str first +:+ " == " +:+ str second))) tb
  else None.

(** [callableObj] stands for what the call [apply(callableObj, args,
    kwargs)] does.  An exception caught by [except excClass] ends the
    method normally, any other one propagates. *)
Definition failUnlessRaises (self : TestCase) (excClass : pyclass)
    (callableObj : outcome) (tb : traceback) : outcome :=
  match callableObj with
  | Some e => if issubclass (exctype e) excClass then None else Some e
  | None => raise_failure self (Some (cls_name excClass)) tb
  end.

(** The test case [t] with a check that does [o]. *)
Definition with_check (t : TestCase) (o : outcome) : TestCase :=
  mkTestCase (t_class t) (_testMethodName t) (failureException t)
    (_id t) (_description t) (_explanation t) (setUp t) o (tearDown t).

(** ** What the text collector writes during a run *)

(** The text a call adds to the output stream of a [_TextTestResult], by
    its [_showAll] and [_dots] flags. *)
Definition progress_of (showAll dots : bool) (c : call) : string :=
  match c with
  | CStartTest t =>
      if showAll then (id_ t +:+ " (" +:+ describe t +:+ ")") +:+ " ... " else ""
  | CAddSuccess _ => if showAll then "ok" +:+ nl else if dots then "." else ""
  | CAddError _ _ => if showAll then "ERROR" +:+ nl else if dots then "E" else ""
  | CAddFailure _ _ => if showAll then "FAIL" +:+ nl else if dots then "F" else ""
  | _ => ""
  end.

Definition progress (showAll dots : bool) (cs : list call) : string :=
  foldr (λ c acc, progress_of showAll dots c +:+ acc) "" cs.

(** The text collector's fields after the calls [cs]: the progress text is
    appended to the output stream and nothing else changes. *)
Definition text_after (cs : list call) (f : TextFields) : TextFields :=
  mkText (_verbosity f) (_showAll f) (_dots f) (_explain f)
    (_streamOut f +:+ progress (_showAll f) (_dots f) cs) (_streamErr f).

Definition tstep (w w' : world) (cs : list call) : Prop :=
  text (result w') = text_after cs <$> text (result w).

Definition truns {A} (txt : bool) (p : string) (m : M A) (cs : list call) : Prop :=
  ∀ w, is_text (result w) = txt → sys_platform w = p → tstep w (m w).2 cs.

(** A recorded outcome, of any test case. *)
Definition is_outcome (c : call) : bool :=
  match c with
  | CAddSuccess _ | CAddFailure _ _ | CAddError _ _ => true
  | _ => false
  end.

Definition suite_writes (s : TestSuite) : Prop :=
  ∀ w, tstep w (exec (TestSuite__call__ s) w)
         (suite_calls (is_text (result w)) (sys_platform w)
            (shouldStop (result w)) (cases_of s)).

(** ** The summary of [_TextTestResult] *)

Definition _separatorWidth : nat := 70.
Definition _sep1 : string := "=".
Definition _sep2 : string := "-".
Definition _errorSep1 : string := "*".
Definition _errorSep2 : string := "-".

(** [s * n] on strings. *)
Fixpoint string_times (s : string) (n : nat) : string :=
  match n with
  | 0 => ""
  | S n' => s +:+ string_times s n'
  end.

(** All four separator methods write with [writeln], to the output
    stream. *)
Definition writeSep1 (f : TextFields) : TextFields :=
  StreamWrapper.writeln [string_times _sep1 _separatorWidth] f.
Definition writeSep2 (f : TextFields) : TextFields :=
  StreamWrapper.writeln [string_times _sep2 _separatorWidth] f.
Definition writeErrSep1 (f : TextFields) : TextFields :=
  StreamWrapper.writeln [string_times _errorSep1 _separatorWidth] f.
Definition writeErrSep2 (f : TextFields) : TextFields :=
  StreamWrapper.writeln [string_times _errorSep2 _separatorWidth] f.

(** [s.split("\n")]: the pieces between the line feeds, at least one.
    [cur] is the current piece, reversed. *)
Fixpoint split_LF_go (cur : string) (s : string) : list string :=
  match s with
  | EmptyString => [String.rev cur]
  | String c s' =>
      if decide (c = LF) then String.rev cur :: split_LF_go "" s'
      else split_LF_go (String c cur) s'
  end.
Definition split_LF (s : string) : list string := split_LF_go "" s.

(** [a and s] and [x or d] where [s] and [d] are strings: [None] stands
    for [False], and the empty string is false as well. *)
Definition py_and (a : bool) (s : string) : option string :=
  if a then Some s else None.
Definition py_or (x : option string) (d : string) : string :=
  match x with
  | Some s => if decide (s = "") then d else s
  | None => d
  end.

Section summary.
(** [traceback.format_exception], applied to the recorded triple. *)
Context (format_exception : exc_info → list string).

Definition printError (flavour : string) (f : TextFields)
    (entry : TestCase * exc_info) : TextFields :=
  let '(test, err) := entry in
  let f := writeErrSep1 f in
  let f := StreamWrapper.writelnErr
             [flavour +:+ " " +:+ id_ test +:+ " (" +:+ describe test +:+ ")"] f in
  let f := if _explain f then
             let expln := explain test in
             if decide (expln = "") then f
             else StreamWrapper.writelnErr []
                    (StreamWrapper.writeErr expln (writeErrSep2 f))
           else f in
  let f := writeErrSep2 f in
  let f := foldl (λ f line,
                    foldl (λ f l, StreamWrapper.writelnErr [l] f) f
                      (removelast (split_LF line)))
                 f (format_exception err) in
  StreamWrapper.writelnErr [""] f.

Definition printErrorList (flavour : string)
    (errors : list (TestCase * exc_info)) (f : TextFields) : TextFields :=
  foldl (printError flavour) f errors.

Definition printErrors (r : TestResult) (f : TextFields) : TextFields :=
  let f := if _dots f || _showAll f then StreamWrapper.writeln [] f else f in
  let f := printErrorList "ERROR" (errors r) f in
  printErrorList "FAIL" (failures r) f.

(** [summarize]; [timeTaken] is the text ["%.3f" % self._timeTaken]. *)
Definition summarize_text (timeTaken : string) (r : TestResult)
    (f : TextFields) : TextFields :=
  let f := printErrors r f in
  let f := writeSep2 f in
  let run := testsRun r in
  let f := StreamWrapper.writeln
             ["Ran " +:+ pretty run +:+ " test" +:+
              py_or (py_and (bool_decide (run = 1)) "") "s" +:+
              " in " +:+ timeTaken +:+ "s"] f in
  let f := StreamWrapper.writeln [] f in
  if negb (TestResult.wasSuccessful r) then
    let f := StreamWrapper.writeErr "FAILED (" f in
    let failed := length (failures r) in
    let errored := length (errors r) in
    let f := if decide (failed = 0) then f
             else StreamWrapper.writeErr ("failures=" +:+ pretty failed) f in
    let f := if decide (errored = 0) then f
             else StreamWrapper.writeErr ("errors=" +:+ pretty errored)
                    (if decide (failed = 0) then f
                     else StreamWrapper.writeErr ", " f) in
    StreamWrapper.writelnErr [")"] f
  else StreamWrapper.writelnErr ["OK"] f.

Definition summarize (timeTaken : string) (r : TestResult) : TestResult :=
  with_text (summarize_text timeTaken r) r.
End summary.

(** [f'] is [f] with text appended to its two streams. *)
Definition appended (f f' : TextFields) (out err : string) : Prop :=
  f' = mkText (_verbosity f) (_showAll f) (_dots f) (_explain f)
         (_streamOut f +:+ out) (_streamErr f +:+ err).

Definition extends (f f' : TextFields) : Prop := ∃ out err, appended f f' out err.


(** The counts between the parentheses of the [FAILED] line. *)
Definition tally (r : TestResult) : string :=
  let failed := length (failures r) in
  let errored := length (errors r) in
  (if decide (failed = 0) then "" else "failures=" +:+ pretty failed) +:+
  (if decide (errored = 0) then ""
   else (if decide (failed = 0) then "" else ", ") +:+
        "errors=" +:+ pretty errored).

(** What one entry of the report adds to the output stream when
    explanations are off: the two separator lines. *)
Definition entry_separators : string :=
  string_times _errorSep1 _separatorWidth +:+ nl +:+
  string_times _errorSep2 _separatorWidth +:+ nl.

(** ** [TextTestRunner] *)

(** The runner keeps its two streams and the settings of the collector it
    makes; the streams hold the text written to them since the runner was
    made. *)
Module TextTestRunner.
Record t := mk {
  _out : string;
  _err : string;
  _verbosity : Z;
  _explain : bool
}.

Definition _makeResult (self : t) : TestResult :=
  mkResult [] [] 0 false
    (Some (mkText (_verbosity self) (bool_decide (1 < _verbosity self)%Z)
             (bool_decide (_verbosity self = 1%Z)) (_explain self)
             (_out self) (_err self))).

(** [run]: the collector is made, handed to the test, and summarized;
    [timeTaken] is the text of the time between [beginTests] and
    [endTests]. *)
Definition run (format_exception : exc_info → list string) (timeTaken : string)
    (self : t) (test : Test) : M TestResult :=
  put_result (_makeResult self) ;;
  Test__call__ test ;;
  result ← get_result;
  put_result (summarize format_exception timeTaken result) ;;
  get_result.
End TextTestRunner.

(** ** Vocabulary for the metadata *)

(** Whether the character [a] occurs in [s]. *)
Fixpoint has_char (a : ascii) (s : string) : bool :=
  match s with
  | EmptyString => false
  | String c s' => bool_decide (c = a) || has_char a s'
  end.

(** A text without line break. *)
Definition one_line (s : string) : Prop :=
  has_char LF s = false ∧ has_char CR s = false.

(** ** [TestLoader.loadTestsFromModule] *)

(** What a name of a module is bound to: a classic class deriving from
    [TestCase], or anything else. *)
Inductive member :=
  | MFixture (c : fixture)
  | MOther.

Definition py_module := gmap string member.

(** [dir(module)]: the names bound in the module, in alphabetical order. *)
Definition module_dir (module : py_module) : list string :=
  merge_sort String.le (elements (dom module)).

Definition loadTestsFromModule (self : TestLoader) (module : py_module)
    : option TestSuite :=
  tests ← foldl (λ acc name,
                   tests ← acc;
                   match module !! name with
                   | Some (MFixture obj) =>
                       s ← loadTestsFromTestCase self obj;
                       Some (tests ++ [ASuite s])
                   | _ => Some tests
                   end)
                (Some []) (module_dir module);
  Some (TestSuite_init (suiteClass self) tests None).

(** The test case classes bound to the names [names] of a module, in the
    order of the names; a class bound to two names is listed twice. *)
Definition classes_in (module : py_module) (names : list string) : list fixture :=
  omap (λ name, match module !! name with
                | Some (MFixture c) => Some c
                | _ => None
                end) names.

Definition classes_of (module : py_module) : list fixture :=
  classes_in module (module_dir module).
(** * Proofs *)

(** ** One run of a test case *)

Section runs.
Context (txt : bool) (p : string).

Lemma bool_decide_CStop_app (cs cs' : list call) :
  bool_decide (CStop ∈ cs ++ cs') = bool_decide (CStop ∈ cs) || bool_decide (CStop ∈ cs').
Proof.
  apply eq_true_iff_eq. rewrite orb_true_iff, !bool_decide_eq_true.
  apply elem_of_app.
Qed.

Lemma runs_ret {A} (v : A) : runs txt p (mret v) v [] [] [] 0.
Proof.
  intros w _ _. split; [done|]. cbn.
  unfold step. rewrite !app_nil_r, Nat.add_0_r, orb_false_r. done.
Qed.

Lemma runs_bind {A B} (m : M A) (f : A → M B) v v' cs cs' fs fs' es es' n n' :
  runs txt p m v cs fs es n →
  runs txt p (f v) v' cs' fs' es' n' →
  runs txt p (m ≫= f) v' (cs ++ cs') (fs ++ fs') (es ++ es') (n + n').
Proof.
  intros Hm Hf w Ht Hp. destruct (Hm w Ht Hp) as [Hv Hs].
  unfold mbind, M_bind. destruct (m w) as [x w1]. cbn in Hv, Hs. subst x.
  destruct Hs as (Hc & Hpl & Hfs & Hes & Hn & Hst & Htx).
  destruct (Hf w1) as [Hv' (Hc' & Hpl' & Hfs' & Hes' & Hn' & Hst' & Htx')];
    [congruence..|].
  split; [done|]. unfold step.
  rewrite Hc', Hc, Hpl', Hpl, Hfs', Hfs, Hes', Hes, Hn', Hn, Hst', Hst, Htx', Htx.
  rewrite bool_decide_CStop_app, !app_assoc, orb_assoc, Nat.add_assoc. done.
Qed.

Lemma runs_eq {A} (m : M A) v cs cs' fs fs' es es' n n' :
  runs txt p m v cs fs es n →
  cs = cs' → fs = fs' → es = es' → n = n' →
  runs txt p m v cs' fs' es' n'.
Proof. by intros ? -> -> -> ->. Qed.
End runs.

Ltac unfold_ops :=
  cbv [startTest stopTest addError addFailure addSuccess invoke exc_info_here
       stop on_result log get_result put_result get_platform mbind M_bind
       mret M_ret _TextTestResult.startTest _TextTestResult.addError
       _TextTestResult.addFailure _TextTestResult.addSuccess step is_text
       addError_calls].

(** Closes a goal with an impossible hypothesis on [stop()] being among
    explicitly listed calls. *)
Ltac stop_absurd :=
  exfalso;
  match goal with
  | H : CStop ∈ _ |- _ =>
      repeat (apply elem_of_cons in H as [H|H]; [congruence|]);
      by apply elem_of_nil in H
  | H : CStop ∉ _ |- _ =>
      apply H; rewrite !elem_of_cons; tauto
  end.

Ltac op_runs :=
  intros [p' [fs es n st [[v [] [] ex so se]|]] l] Ht Hp;
  cbn in Ht, Hp; subst; try discriminate; unfold_ops; cbn;
  repeat (case_decide; cbn);
  rewrite ?app_nil_r, ?Nat.add_0_r, ?orb_false_r, ?orb_true_r, <- ?app_assoc;
  try done; try stop_absurd.

Section ops.
Context (txt : bool) (p : string).

Lemma runs_invoke c o : c ≠ CStop → runs txt p (invoke c o) o [c] [] [] 0.
Proof. intros Hc. destruct txt; op_runs. Qed.

Lemma runs_exc_info_here e :
  runs txt p (exc_info_here e) (__exc_info p e) [] [] [] 0.
Proof. destruct txt; op_runs. Qed.

Lemma runs_startTest t : runs txt p (startTest t) () [CStartTest t] [] [] 1.
Proof. destruct txt; op_runs. Qed.

Lemma runs_stopTest t : runs txt p (stopTest t) () [CStopTest t] [] [] 0.
Proof. destruct txt; op_runs. Qed.

Lemma runs_addSuccess t : runs txt p (addSuccess t) () [CAddSuccess t] [] [] 0.
Proof. destruct txt; op_runs. Qed.

Lemma runs_addFailure t ei :
  runs txt p (addFailure t ei) () [CAddFailure t ei] [(t, ei)] [] 0.
Proof. destruct txt; op_runs. Qed.

Lemma runs_addError t ei :
  runs txt p (addError t ei) () (addError_calls txt t ei) [] [(t, ei)] 0.
Proof. destruct txt; op_runs. Qed.

Lemma runs_record_error t e :
  runs txt p (ei ← exc_info_here e; addError t ei ;; mret false) false
    (addError_calls txt t (__exc_info p e)) [] [(t, __exc_info p e)] 0.
Proof.
  eapply runs_eq.
  - eapply runs_bind; [apply runs_exc_info_here|].
    eapply runs_bind; [apply runs_addError|apply runs_ret].
  - by rewrite app_nil_r.
  - done.
  - done.
  - done.
Qed.

Lemma runs_record_failure t e :
  runs txt p (ei ← exc_info_here e; addFailure t ei ;; mret false) false
    [CAddFailure t (__exc_info p e)] [(t, __exc_info p e)] [] 0.
Proof.
  eapply runs_eq.
  - eapply runs_bind; [apply runs_exc_info_here|].
    eapply runs_bind; [apply runs_addFailure|apply runs_ret].
  - done.
  - done.
  - done.
  - done.
Qed.

Ltac record_step :=
  lazymatch goal with
  | |- runs _ _ (mret _) _ _ _ _ _ => apply runs_ret
  | |- runs _ _ (addSuccess _) _ _ _ _ _ => apply runs_addSuccess
  | |- runs _ _ (_ ≫= λ ei, addFailure _ ei ≫= _) _ _ _ _ _ =>
      apply runs_record_failure
  | |- runs _ _ (_ ≫= λ ei, addError _ ei ≫= _) _ _ _ _ _ =>
      apply runs_record_error
  end.

Lemma runs___call__body t :
  runs txt p (__call__body t) ()
    (CSetUp t ::
     match setUp t with
     | Some e => addError_calls txt t (__exc_info p e)
     | None =>
         [CTestMethod t] ++ check_calls txt p t ++
         [CTearDown t] ++ tearDown_calls txt p t ++ success_calls t
     end)
    (new_failures p t) (new_errors p t) 0.
Proof.
  unfold __call__body, new_failures, new_errors, check_calls, tearDown_calls,
    success_calls, is_failure, raised_by.
  destruct (setUp t) as [su|].
  { eapply runs_eq.
    - eapply runs_bind; [by apply runs_invoke|]. cbn beta iota.
      eapply runs_bind; [apply runs_exc_info_here|apply runs_addError].
    - done.
    - done.
    - done.
    - done. }
  destruct (_testMethod t) as [tm|], (tearDown t) as [td|];
    try destruct (issubclass (exctype tm) (failureException t)) eqn:Hsub.
  all: eapply runs_eq;
    [ eapply runs_bind; [apply runs_invoke; discriminate|]; cbn beta iota;
      eapply runs_bind; [apply runs_invoke; discriminate|]; cbn beta iota;
      rewrite ?Hsub; cbn beta iota;
      eapply runs_bind; [record_step|]; cbn beta iota;
      eapply runs_bind; [apply runs_invoke; discriminate|]; cbn beta iota;
      eapply runs_bind; [record_step|]; cbn beta iota; record_step
    | cbn [app]; rewrite <- ?app_assoc, ?app_nil_r; reflexivity .. ].
Qed.

(** One run of a test case, on any collector: the calls made and what
    becomes of the collector's fields. *)
Lemma runs___call__ t :
  runs txt p (__call__ t) () (run_calls txt p t)
    (new_failures p t) (new_errors p t) 1.
Proof.
  unfold __call__, run_calls. eapply runs_eq.
  - eapply runs_bind; [apply runs_startTest|].
    eapply runs_bind; [apply runs___call__body|apply runs_stopTest].
  - cbn. by rewrite <- ?app_assoc.
  - cbn. by rewrite app_nil_r.
  - cbn. by rewrite app_nil_r.
  - done.
Qed.
End ops.

Lemma __call___spec (t : TestCase) (w : world) :
  step w (exec (__call__ t) w)
    (run_calls (is_text (result w)) (sys_platform w) t)
    (new_failures (sys_platform w) t) (new_errors (sys_platform w) t) 1.
Proof. by apply runs___call__. Qed.

Lemma calls_during___call__ (t : TestCase) (w : world) :
  calls_during (__call__ t) w = run_calls (is_text (result w)) (sys_platform w) t.
Proof.
  unfold calls_during. destruct (__call___spec t w) as [-> _].
  by rewrite drop_app_length.
Qed.

Lemma outcomes_recorded_cons t c l :
  outcomes_recorded t (c :: l) =
  (if is_outcome_for t c then 1 else 0) + outcomes_recorded t l.
Proof.
  unfold outcomes_recorded. rewrite filter_cons.
  destruct (is_outcome_for t c); by case_decide.
Qed.

Lemma outcomes_recorded_app t l l' :
  outcomes_recorded t (l ++ l') = outcomes_recorded t l + outcomes_recorded t l'.
Proof. unfold outcomes_recorded. by rewrite filter_app, length_app. Qed.

Lemma outcomes_recorded_addError txt t ei :
  outcomes_recorded t (addError_calls txt t ei) = 1.
Proof.
  unfold addError_calls. rewrite outcomes_recorded_cons. cbn.
  rewrite bool_decide_eq_true_2 by done. by case_match.
Qed.

Lemma outcomes_recorded_run_calls txt p t :
  outcomes_recorded t (run_calls txt p t) = outcome_count t.
Proof.
  unfold run_calls, check_calls, tearDown_calls, success_calls, outcome_count.
  destruct (setUp t), (_testMethod t), (tearDown t);
    try destruct (issubclass _ _).
  all: rewrite ?outcomes_recorded_app, ?outcomes_recorded_cons,
         ?outcomes_recorded_addError; cbn;
       rewrite ?outcomes_recorded_app, ?outcomes_recorded_cons,
         ?outcomes_recorded_addError, ?bool_decide_eq_true_2 by done; done.
Qed.

(** Lists built with [++] and [::], brought to one shape. *)
Ltac list_norm :=
  cbn [app]; rewrite ?app_nil_r, <- ?app_assoc; cbn [app];
  rewrite ?app_nil_r, <- ?app_assoc; cbn [app].

(** Membership in an explicitly listed sequence of calls. *)
Ltac elem_solve :=
  rewrite ?elem_of_app, ?elem_of_cons, ?elem_of_nil;
  intuition (first [congruence | discriminate | idtac]).

Ltac open_run_calls :=
  unfold run_calls, check_calls, tearDown_calls, success_calls, addError_calls;
  repeat match goal with
    | |- context [match ?x with _ => _ end] => destruct x eqn:?
    end; simplify_eq.

Lemma CAddSuccess_run_calls txt p t :
  CAddSuccess t ∈ run_calls txt p t ↔
  setUp t = None ∧ _testMethod t = None ∧ tearDown t = None.
Proof. open_run_calls; elem_solve. Qed.

(** ** Claims about one run of a test case *)

(** C1, as stated, fails: the run of [failing_then_broken] records a failure
    for the check and then an error for [tearDown], two outcomes against the
    same unit. *)
Lemma two_outcomes_recorded :
  outcomes_recorded failing_then_broken
    (calls_during (__call__ failing_then_broken) plain_world) = 2 ∧
  outcomes_recorded failing_then_broken
    (calls_during (__call__ failing_then_broken) plain_world) ≠ 1.
Proof. rewrite calls_during___call__, outcomes_recorded_run_calls. by cbn. Qed.

(** The outcomes among the calls of a run, in order. *)
Lemma recorded_cons t c l :
  filter (λ c, is_outcome_for t c = true) (c :: l) =
  (if is_outcome_for t c then [c] else []) ++
  filter (λ c, is_outcome_for t c = true) l.
Proof. rewrite filter_cons. destruct (is_outcome_for t c); by case_decide. Qed.

Lemma recorded_addError txt t ei :
  filter (λ c, is_outcome_for t c = true) (addError_calls txt t ei) =
  [CAddError t ei].
Proof.
  unfold addError_calls. rewrite recorded_cons. cbn [is_outcome_for].
  rewrite bool_decide_eq_true_2 by done. by case_match.
Qed.

Lemma recorded_run_calls txt p t :
  filter (λ c, is_outcome_for t c = true) (run_calls txt p t) =
  match setUp t, _testMethod t, tearDown t with
  | Some e, _, _ => [CAddError t (__exc_info p e)]
  | None, None, None => [CAddSuccess t]
  | None, Some e, None =>
      [if issubclass (exctype e) (failureException t)
       then CAddFailure t (__exc_info p e) else CAddError t (__exc_info p e)]
  | None, None, Some e' => [CAddError t (__exc_info p e')]
  | None, Some e, Some e' =>
      [if issubclass (exctype e) (failureException t)
       then CAddFailure t (__exc_info p e) else CAddError t (__exc_info p e);
       CAddError t (__exc_info p e')]
  end.
Proof.
  unfold run_calls, check_calls, tearDown_calls, success_calls.
  destruct (setUp t), (_testMethod t), (tearDown t);
    try destruct (issubclass _ _).
  all: rewrite ?filter_app, ?recorded_cons, ?recorded_addError;
       cbn [is_outcome_for app];
       rewrite ?filter_app, ?recorded_cons, ?recorded_addError,
         ?bool_decide_eq_true_2 by done;
       cbn [is_outcome_for app];
       rewrite ?bool_decide_eq_true_2 by done; done.
Qed.

(** C1, amended: every run records one or two outcomes against its unit;
    two exactly when [setUp] returns and both the check and [tearDown]
    raise; [addSuccess] is never recorded next to another outcome; and the
    outcomes recorded are, in order: the error of [setUp] when it raises;
    otherwise the failure or error of the check when it raises (a failure
    when the exception is of [failureException] or of a class derived from
    it) and then the error of [tearDown] when it raises, and a success when
    neither raises. *)
Theorem outcomes_of_a_run (t : TestCase) (w : world) :
  let new := calls_during (__call__ t) w in
  let p := sys_platform w in
  let of_check e :=
    if issubclass (exctype e) (failureException t)
    then CAddFailure t (__exc_info p e) else CAddError t (__exc_info p e) in
  1 ≤ outcomes_recorded t new ≤ 2 ∧
  (outcomes_recorded t new = 2 ↔
     setUp t = None ∧ is_Some (_testMethod t) ∧ is_Some (tearDown t)) ∧
  (CAddSuccess t ∈ new → outcomes_recorded t new = 1) ∧
  filter (λ c, is_outcome_for t c = true) new =
    match setUp t, _testMethod t, tearDown t with
    | Some e, _, _ => [CAddError t (__exc_info p e)]
    | None, None, None => [CAddSuccess t]
    | None, Some e, None => [of_check e]
    | None, None, Some e' => [CAddError t (__exc_info p e')]
    | None, Some e, Some e' => [of_check e; CAddError t (__exc_info p e')]
    end.
Proof.
  cbn zeta. rewrite calls_during___call__, outcomes_recorded_run_calls.
  rewrite CAddSuccess_run_calls, recorded_run_calls. unfold outcome_count.
  destruct (setUp t), (_testMethod t), (tearDown t);
    rewrite <- ?not_eq_None_Some; intuition (first [lia | congruence]).
Qed.

Lemma outcomes_of_a_run_witness :
  CAddSuccess (case0 None None None)
    ∈ calls_during (__call__ (case0 None None None)) plain_world ∧
  outcomes_recorded (case0 None None None)
    (calls_during (__call__ (case0 None None None)) plain_world) = 1.
Proof.
  assert (CAddSuccess (case0 None None None)
    ∈ calls_during (__call__ (case0 None None None)) plain_world) as H.
  { rewrite calls_during___call__. cbn. rewrite !elem_of_cons. tauto. }
  split; [exact H|].
  exact (proj1 (proj2 (proj2
           (outcomes_of_a_run (case0 None None None) plain_world))) H).
Defined.

Lemma last_run_calls txt p t : last (run_calls txt p t) = Some (CStopTest t).
Proof. unfold run_calls. by rewrite !app_assoc, last_snoc. Qed.

(** C4: a run always ends with [stopTest]; and when [setUp] raises, the run
    is [startTest], [setUp], [addError] (with the [stop()] of the text
    collector on an interrupt), [stopTest]: the check and [tearDown] are not
    called, no success and no failure is recorded, and the error is appended
    to the collector's errors. *)
Theorem setUp_raises_error_only (t : TestCase) (w : world) :
  let w' := exec (__call__ t) w in
  let new := calls_during (__call__ t) w in
  last new = Some (CStopTest t) ∧
  ∀ e, setUp t = Some e →
    let err := __exc_info (sys_platform w) e in
    new = [CStartTest t; CSetUp t] ++
          addError_calls (is_text (result w)) t err ++ [CStopTest t] ∧
    (CTestMethod t ∉ new) ∧ (CTearDown t ∉ new) ∧
    (CAddSuccess t ∉ new) ∧ (∀ e', CAddFailure t e' ∉ new) ∧
    errors (result w') = errors (result w) ++ [(t, err)] ∧
    failures (result w') = failures (result w) ∧
    testsRun (result w') = testsRun (result w) + 1.
Proof.
  cbn zeta. rewrite calls_during___call__. split; [apply last_run_calls|].
  intros e He.
  destruct (__call___spec t w) as (_ & _ & Hf & Hes & Hn & _).
  rewrite Hf, Hes, Hn. unfold new_failures, new_errors, raised_by. rewrite He.
  rewrite app_nil_r. repeat split; try done.
  - unfold run_calls. by rewrite He.
  - open_run_calls; elem_solve.
  - open_run_calls; elem_solve.
  - open_run_calls; elem_solve.
  - intros e'. open_run_calls; elem_solve.
Qed.

Lemma setUp_raises_error_only_witness :
  setUp (case0 boom None None) = boom ∧
  calls_during (__call__ (case0 boom None None)) text_world =
    [CStartTest (case0 boom None None); CSetUp (case0 boom None None);
     CAddError (case0 boom None None)
       (ExcInfo ValueError "boom" (Traceback "check" None));
     CStopTest (case0 boom None None)].
Proof.
  split; [reflexivity|].
  exact (proj1 (proj2 (setUp_raises_error_only (case0 boom None None) text_world)
                  (ExcInfo ValueError "boom" tb0) eq_refl)).
Defined.

(** C5: when [setUp] and the check return and [tearDown] raises, the run
    records an error for the unit, appended to the collector's errors, and
    no success. *)
Theorem tearDown_raises_error_not_success (t : TestCase) (w : world) (e : exc_info) :
  setUp t = None → _testMethod t = None → tearDown t = Some e →
  let w' := exec (__call__ t) w in
  let new := calls_during (__call__ t) w in
  let err := __exc_info (sys_platform w) e in
  new = [CStartTest t; CSetUp t; CTestMethod t; CTearDown t] ++
        addError_calls (is_text (result w)) t err ++ [CStopTest t] ∧
  (CAddSuccess t ∉ new) ∧
  errors (result w') = errors (result w) ++ [(t, err)] ∧
  failures (result w') = failures (result w).
Proof.
  intros Hs Hc Ht. cbn zeta. rewrite calls_during___call__.
  destruct (__call___spec t w) as (_ & _ & Hf & Hes & _).
  rewrite Hf, Hes. unfold new_failures, new_errors, raised_by, is_failure.
  rewrite Hs, Hc, Ht, app_nil_r. repeat split; try done.
  - unfold run_calls, check_calls, tearDown_calls, success_calls.
    rewrite Hs, Hc, Ht. cbn. by rewrite app_nil_r.
  - rewrite CAddSuccess_run_calls. intros (_ & _ & ?). congruence.
Qed.

Lemma tearDown_raises_error_not_success_witness :
  (CAddSuccess (case0 None None boom)
     ∉ calls_during (__call__ (case0 None None boom)) plain_world) ∧
  errors (result (exec (__call__ (case0 None None boom)) plain_world)) =
    [(case0 None None boom, ExcInfo ValueError "boom" (Traceback "check" None))].
Proof.
  pose proof (tearDown_raises_error_not_success (case0 None None boom) plain_world
                (ExcInfo ValueError "boom" tb0) eq_refl eq_refl eq_refl) as H.
  split; [exact (proj1 (proj2 H))|exact (proj1 (proj2 (proj2 H)))].
Defined.

(** C3, as stated, fails: the check of [raises_subclass] raises a class
    other than [failureException], and the run records a failure and no
    error, since [except self.failureException] also catches the classes
    derived from it. *)
Lemma subclass_recorded_as_failure :
  _testMethod raises_subclass = raising SubAssertion "x != y" ∧
  SubAssertion ≠ failureException raises_subclass ∧
  (∀ err, CAddError raises_subclass err
            ∉ calls_during (__call__ raises_subclass) plain_world) ∧
  errors (result (exec (__call__ raises_subclass) plain_world)) = [] ∧
  failures (result (exec (__call__ raises_subclass) plain_world)) =
    [(raises_subclass, ExcInfo SubAssertion "x != y" (Traceback "check" None))].
Proof.
  split; [done|]. split; [done|].
  destruct (__call___spec raises_subclass plain_world) as (_ & _ & -> & -> & _).
  rewrite calls_during___call__. split; [|done].
  intros err. cbn [is_text text result plain_world TestResult.init sys_platform].
  set (l := run_calls _ _ _). vm_compute in l. subst l. elem_solve.
Qed.

(** C3, amended: after a [setUp] that returns, a check that raises an
    exception caught by [except self.failureException] (the class itself or a
    class derived from it) is recorded as a failure, one that raises anything
    else as an error; between the call of the check and the call of
    [tearDown] exactly that one record is made; and a check that returns,
    followed by a [tearDown] that returns, is recorded as a success. *)
Theorem check_outcome_recorded (t : TestCase) (w : world) :
  setUp t = None →
  let w' := exec (__call__ t) w in
  let new := calls_during (__call__ t) w in
  let p := sys_platform w in
  let txt := is_text (result w) in
  (∀ e, _testMethod t = Some e →
     (exctype e = failureException t →
        issubclass (exctype e) (failureException t) = true) ∧
     (issubclass (exctype e) (failureException t) = true →
        new = [CStartTest t; CSetUp t; CTestMethod t;
               CAddFailure t (__exc_info p e); CTearDown t] ++
              tearDown_calls txt p t ++ [CStopTest t] ∧
        failures (result w') = failures (result w) ++ [(t, __exc_info p e)] ∧
        errors (result w') = errors (result w) ++ raised_by p t (tearDown t)) ∧
     (issubclass (exctype e) (failureException t) = false →
        new = [CStartTest t; CSetUp t; CTestMethod t] ++
              addError_calls txt t (__exc_info p e) ++ [CTearDown t] ++
              tearDown_calls txt p t ++ [CStopTest t] ∧
        failures (result w') = failures (result w) ∧
        errors (result w') =
          errors (result w) ++ [(t, __exc_info p e)] ++ raised_by p t (tearDown t))) ∧
  (_testMethod t = None → tearDown t = None →
     new = [CStartTest t; CSetUp t; CTestMethod t; CTearDown t;
            CAddSuccess t; CStopTest t] ∧
     failures (result w') = failures (result w) ∧
     errors (result w') = errors (result w)).
Proof.
  intros Hs. cbn zeta. rewrite calls_during___call__.
  destruct (__call___spec t w) as (_ & _ & Hf & He & _). rewrite Hf, He.
  clear Hf He.
  unfold run_calls, check_calls, success_calls, new_failures, new_errors,
    is_failure. rewrite Hs. split.
  - intros e He. rewrite He. split; [|split].
    + intros ->. unfold issubclass. apply bool_decide_eq_true.
      apply elem_of_cons. by left.
    + intros ->. by list_norm.
    + intros ->. unfold addError_calls. by list_norm.
  - intros -> Ht. unfold tearDown_calls, raised_by. rewrite Ht. by list_norm.
Qed.

Lemma check_outcome_recorded_witness :
  setUp (case0 None failed_check None) = None ∧
  calls_during (__call__ (case0 None failed_check None)) plain_world =
    [CStartTest (case0 None failed_check None);
     CSetUp (case0 None failed_check None);
     CTestMethod (case0 None failed_check None);
     CAddFailure (case0 None failed_check None)
       (ExcInfo AssertionError "x != y" (Traceback "check" None));
     CTearDown (case0 None failed_check None);
     CStopTest (case0 None failed_check None)].
Proof.
  split; [reflexivity|].
  pose proof (check_outcome_recorded (case0 None failed_check None) plain_world
                eq_refl) as [H _].
  exact (proj1 (proj1 (proj2 (H (ExcInfo AssertionError "x != y" tb0) eq_refl))
                  eq_refl)).
Defined.

(** ** The description built by [_setupMetaData] *)

Lemma splitlines_go_cur (cur : string) (b : bool) (s : string) :
  cur ≠ "" → splitlines_go cur b s ≠ [].
Proof.
  revert cur b. induction s as [|c s IH]; intros cur b Hcur; cbn.
  - by case_decide.
  - repeat case_decide; try done.
    + destruct b; [by apply IH|done].
    + by apply IH.
Qed.

Lemma splitlines_nonempty (s : string) : s ≠ "" → splitlines s ≠ [].
Proof.
  unfold splitlines. destruct s as [|c s]; [done|]. intros _. cbn.
  repeat case_decide; try done. by apply splitlines_go_cur.
Qed.

Lemma doc_or_nl_nonempty (doc : option string) : doc_or_nl doc ≠ "".
Proof. destruct doc as [d|]; cbn; [by case_decide|done]. Qed.

Lemma part_of_is_Some (doc : option string) : is_Some (part_of doc).
Proof.
  unfold part_of, first_line.
  pose proof (splitlines_nonempty _ (doc_or_nl_nonempty doc)) as H.
  destruct (splitlines (doc_or_nl doc)); [done|]. by eexists.
Qed.

(** C2, as stated, fails: with a fixture docstring and no docstring on the
    check, the check's part is empty and the description is the fixture's
    part followed by a comma and a space, not the fixture's part alone. *)
Lemma description_with_trailing_comma :
  part_of (Some "Fixture") = Some "Fixture" ∧
  part_of None = Some "" ∧
  description_of None (Some "Fixture") = Some "Fixture, " ∧
  description_of None (Some "Fixture") ≠ Some "Fixture".
Proof. by vm_compute. Qed.

(** C2, amended: construction always yields a description; it is the
    check's part alone when the fixture's part is empty, and otherwise the
    fixture's part, a comma and a space, and the check's part, whether or
    not the check's part is empty. *)
Theorem description_rule (testDoc fixtureDoc : option string)
    (name : option string) (class testMethodName : string) :
  ∃ md testDescription fixtureDescription,
    _setupMetaData testDoc fixtureDoc name class testMethodName = Some md ∧
    part_of testDoc = Some testDescription ∧
    part_of fixtureDoc = Some fixtureDescription ∧
    md_description md =
      (if decide (fixtureDescription = "") then testDescription
       else fixtureDescription +:+ ", " +:+ testDescription) ∧
    description_of testDoc fixtureDoc = Some (md_description md).
Proof.
  destruct (part_of_is_Some testDoc) as [td Htd].
  destruct (part_of_is_Some fixtureDoc) as [fd Hfd].
  unfold description_of, _setupMetaData. unfold part_of in Htd, Hfd.
  rewrite Htd, Hfd. cbn. eexists _, td, fd. repeat split; try done.
Qed.

(** ** Suites: induction, counting and the name map *)

Lemma cases_of_flat cls tests m n :
  cases_of (mkTestSuite cls tests m n) = flat_cases tests.
Proof.
  cbn. induction tests as [|[c|s] tests IH]; cbn; [done|by rewrite IH..].
Qed.

Lemma countTestCases_loop cls tests m n :
  countTestCases (mkTestSuite cls tests m n) = count_loop tests 0.
Proof. reflexivity. Qed.

Lemma count_loop_sum tests cases :
  count_loop tests cases = cases + sum_list_with Test_countTestCases tests.
Proof.
  revert cases. induction tests as [|test tests IH]; intros cases; cbn.
  - lia.
  - rewrite IH. lia.
Qed.

Lemma countTestCases_length (s : TestSuite) :
  countTestCases s = length (cases_of s).
Proof.
  induction s as [cls tests m n IH] using TestSuite_nested_ind.
  rewrite cases_of_flat, countTestCases_loop, count_loop_sum. cbn.
  induction IH as [|[c|s] tests Hs _ IHtests]; cbn; [done|..].
  - by rewrite IHtests.
  - cbn in Hs. rewrite length_app, Hs, IHtests. done.
Qed.

(** C8: the count of a suite is the sum of the counts of its children, 0
    for a suite without children and 1 for a test case; at any depth it is
    the number of test cases below the suite; and it follows the children
    added later: after [addTest] it has grown by the count of the new
    child. *)
Theorem countTestCases_sum (s : TestSuite) :
  countTestCases s = sum_list_with Test_countTestCases (_tests s) ∧
  countTestCases s = length (cases_of s) ∧
  (∀ cls name, countTestCases (TestSuite_init cls [] name) = 0) ∧
  (∀ c, Test_countTestCases (ACase c) = 1) ∧
  (∀ test, countTestCases (addTest s test) =
           countTestCases s + Test_countTestCases test) ∧
  (∀ tests, countTestCases (addTests s tests) =
            countTestCases s + sum_list_with Test_countTestCases tests).
Proof.
  assert (∀ s', countTestCases s' = sum_list_with Test_countTestCases (_tests s'))
    as Hsum.
  { intros [cls tests m n]. by rewrite countTestCases_loop, count_loop_sum. }
  assert (∀ s' test, countTestCases (addTest s' test) =
                     countTestCases s' + Test_countTestCases test) as Hadd.
  { intros s' test. rewrite !Hsum. unfold addTest. cbn [_tests].
    rewrite sum_list_with_app. cbn. lia. }
  split; [apply Hsum|]. split; [apply countTestCases_length|].
  split; [done|]. split; [done|]. split; [apply Hadd|].
  intros tests. revert s. unfold addTests.
  induction tests as [|test tests IH]; intros s; cbn; [lia|].
  rewrite IH, Hadd. lia.
Qed.

(** C10: an unnamed suite is filed under the name of its class; the child
    added last under a key is the one [getTestForName] returns for it, so
    of two children with the same key the second replaces the first in the
    map, while both are in [_tests], in the order they were added. *)
Theorem addTest_same_key (self : TestSuite) (a b : Test) :
  key_of a = key_of b →
  (∀ s, suiteName s = None ∨ suiteName s = Some "" →
        key_of (ASuite s) = s_class s) ∧
  getTestForName (addTest self a) (key_of a) = Some a ∧
  getTestForName (addTest (addTest self a) b) (key_of a) = Some b ∧
  _tests (addTest (addTest self a) b) = _tests self ++ [a; b].
Proof.
  intros Hk. split; [|split; [|split]].
  - intros s [Hn|Hn]; cbn; by rewrite Hn.
  - unfold getTestForName, addTest. cbn. apply lookup_insert_eq.
  - unfold getTestForName, addTest. cbn. rewrite Hk. apply lookup_insert_eq.
  - unfold addTest. cbn. by rewrite <- app_assoc.
Qed.

Lemma addTest_same_key_witness :
  key_of (ASuite suite_A) = "TestSuite" ∧
  key_of (ASuite suite_B) = "TestSuite" ∧
  getTestForName
    (addTest (addTest (TestSuite_init "TestSuite" [] None) (ASuite suite_A))
       (ASuite suite_B)) "TestSuite" = Some (ASuite suite_B) ∧
  _tests
    (addTest (addTest (TestSuite_init "TestSuite" [] None) (ASuite suite_A))
       (ASuite suite_B)) = [ASuite suite_A; ASuite suite_B].
Proof.
  split; [reflexivity|]. split; [reflexivity|].
  pose proof (addTest_same_key (TestSuite_init "TestSuite" [] None)
                (ASuite suite_A) (ASuite suite_B) eq_refl) as H.
  split; [exact (proj1 (proj2 (proj2 H)))|exact (proj2 (proj2 (proj2 H)))].
Defined.

(** ** Running a suite *)

Lemma TestSuite__call___loop cls tests m n :
  TestSuite__call__ (mkTestSuite cls tests m n) = run_tests tests.
Proof. reflexivity. Qed.

Lemma run_tests_stopped (tests : list Test) (w : world) :
  shouldStop (result w) = true → run_tests tests w = ((), w).
Proof.
  intros Hstop. destruct tests as [|test tests]; [done|].
  cbn. unfold mbind, M_bind, get_result. by rewrite Hstop.
Qed.

(** With the stop flag set, running a suite does nothing. *)
Lemma suite_stopped (s : TestSuite) (w : world) :
  shouldStop (result w) = true → exec (TestSuite__call__ s) w = w.
Proof.
  intros Hstop. destruct s as [cls tests m n].
  rewrite TestSuite__call___loop. unfold exec. by rewrite run_tests_stopped.
Qed.

Lemma step_refl (w : world) : step w w [] [] [] 0.
Proof.
  unfold step. rewrite !app_nil_r, Nat.add_0_r, orb_false_r. done.
Qed.

Lemma step_trans (w w1 w2 : world) cs cs' fs fs' es es' n n' :
  step w w1 cs fs es n → step w1 w2 cs' fs' es' n' →
  step w w2 (cs ++ cs') (fs ++ fs') (es ++ es') (n + n').
Proof.
  intros (Hc & Hpl & Hfs & Hes & Hn & Hst & Htx)
         (Hc' & Hpl' & Hfs' & Hes' & Hn' & Hst' & Htx').
  unfold step.
  rewrite Hc', Hc, Hpl', Hpl, Hfs', Hfs, Hes', Hes, Hn', Hn, Hst', Hst, Htx', Htx.
  rewrite bool_decide_CStop_app, !app_assoc, orb_assoc, Nat.add_assoc. done.
Qed.

Lemma suite_calls_stopped txt p ts : suite_calls txt p true ts = [].
Proof. by destruct ts. Qed.

Lemma suite_calls_app txt p stopped ts ts' :
  suite_calls txt p stopped (ts ++ ts') =
  suite_calls txt p stopped ts ++
  suite_calls txt p
    (stopped || bool_decide (CStop ∈ suite_calls txt p stopped ts)) ts'.
Proof.
  revert stopped. induction ts as [|t ts IH]; intros stopped;
    cbn [suite_calls app].
  - rewrite bool_decide_eq_false_2 by apply not_elem_of_nil.
    by rewrite orb_false_r.
  - destruct stopped; cbn [orb app].
    + by rewrite suite_calls_stopped.
    + by rewrite IH, bool_decide_CStop_app, app_assoc.
Qed.

Lemma run_tests_step (tests : list Test) :
  Forall (holds_of_suite suite_runs) tests →
  ∀ w, ∃ fs es n,
    step w (exec (run_tests tests) w)
      (suite_calls (is_text (result w)) (sys_platform w)
         (shouldStop (result w)) (flat_cases tests)) fs es n.
Proof.
  induction 1 as [|test tests Htest _ IH]; intros w.
  { exists [], [], 0. apply step_refl. }
  destruct (shouldStop (result w)) eqn:Hstop.
  { unfold exec. rewrite run_tests_stopped, suite_calls_stopped by done.
    exists [], [], 0. apply step_refl. }
  assert (∃ fs es n,
    step w (exec (Test__call__ test) w)
      (suite_calls (is_text (result w)) (sys_platform w) false (Test_cases test))
      fs es n) as (fs & es & n & Hstep).
  { destruct test as [c|s]; cbn [Test__call__ Test_cases suite_calls].
    - eexists _, _, _. rewrite app_nil_r. apply __call___spec.
    - destruct (Htest w) as (fs & es & n & Hs). rewrite Hstop in Hs. eauto. }
  set (w1 := exec (Test__call__ test) w) in *.
  destruct (IH w1) as (fs' & es' & n' & Hstep').
  exists (fs ++ fs'), (es ++ es'), (n + n').
  replace (exec (run_tests (test :: tests)) w) with (exec (run_tests tests) w1).
  2:{ unfold w1, exec. cbn. unfold mbind, M_bind, get_result. rewrite Hstop.
      by destruct (Test__call__ test w). }
  unfold flat_cases. cbn [flat_map]. rewrite suite_calls_app.
  eapply step_trans; [exact Hstep|].
  destruct Hstep as (_ & Hpl & _ & _ & _ & Hst & Htx).
  rewrite Hpl, Htx, Hst, Hstop in Hstep'. exact Hstep'.
Qed.

Lemma suite_runs_all (s : TestSuite) : suite_runs s.
Proof.
  induction s as [cls tests m n IH] using TestSuite_nested_ind.
  intros w. rewrite TestSuite__call___loop, cases_of_flat.
  by apply run_tests_step.
Qed.

Lemma calls_during_suite (s : TestSuite) (w : world) :
  calls_during (TestSuite__call__ s) w =
  suite_calls (is_text (result w)) (sys_platform w) (shouldStop (result w))
    (cases_of s).
Proof.
  destruct (suite_runs_all s w) as (fs & es & n & Hc & _).
  unfold calls_during. rewrite Hc. by rewrite drop_app_length.
Qed.

Lemma no_start_when_stopped_app stopped cs cs' :
  no_start_when_stopped stopped (cs ++ cs') =
  no_start_when_stopped stopped cs &&
  no_start_when_stopped (stopped || bool_decide (CStop ∈ cs)) cs'.
Proof.
  revert stopped. induction cs as [|c cs IH]; intros stopped.
  - cbn [app no_start_when_stopped andb].
    rewrite bool_decide_eq_false_2 by apply not_elem_of_nil.
    by rewrite orb_false_r.
  - assert (c = CStop ∨ c ≠ CStop) as [->|Hc] by (destruct c; auto).
    + cbn [app no_start_when_stopped]. rewrite IH.
      rewrite (bool_decide_eq_true_2 (CStop ∈ CStop :: cs))
        by (apply elem_of_cons; auto).
      by rewrite orb_true_r.
    + assert (bool_decide (CStop ∈ c :: cs) = bool_decide (CStop ∈ cs)) as ->.
      { apply bool_decide_ext. rewrite elem_of_cons. intuition congruence. }
      destruct c; try done; cbn [app no_start_when_stopped];
        by rewrite IH, ?andb_assoc.
Qed.

Lemma no_start_when_stopped_run_calls txt p t :
  no_start_when_stopped false (run_calls txt p t) = true.
Proof. by open_run_calls. Qed.

Lemma no_start_when_stopped_suite_calls txt p stopped ts :
  no_start_when_stopped stopped (suite_calls txt p stopped ts) = true.
Proof.
  revert stopped. induction ts as [|t ts IH]; intros stopped; [done|].
  cbn [suite_calls]. destruct stopped; [done|].
  rewrite no_start_when_stopped_app, no_start_when_stopped_run_calls.
  cbn [andb orb]. apply IH.
Qed.

Lemma no_start_after_stop (cs l1 l2 : list call) (stopped : bool) (t : TestCase) :
  no_start_when_stopped stopped cs = true →
  cs = l1 ++ CStop :: l2 → CStartTest t ∉ l2.
Proof.
  intros Hscan ->. rewrite no_start_when_stopped_app in Hscan.
  apply andb_true_iff in Hscan as [_ Hscan]. cbn [no_start_when_stopped] in Hscan.
  clear l1 stopped. induction l2 as [|c l2 IH]; [apply not_elem_of_nil|].
  apply not_elem_of_cons. destruct c; cbn in Hscan; try done; auto.
Qed.

Lemma suite_calls_prefix txt p stopped ts :
  ∃ started, started `prefix_of` ts ∧
    suite_calls txt p stopped ts = mjoin (run_calls txt p <$> started).
Proof.
  revert stopped. induction ts as [|t ts IH]; intros stopped.
  - by exists [].
  - destruct stopped; cbn [suite_calls].
    + exists []. split; [apply prefix_nil|done].
    + destruct (IH (bool_decide (CStop ∈ run_calls txt p t)))
        as (started & Hpre & ->).
      exists (t :: started). split; [by apply prefix_cons|done].
Qed.

(** C6: the calls of a suite run are the complete runs, one after the
    other, of the first so many test cases below the suite in the order of
    the tree; a suite run with the stop flag set changes nothing; and no
    [startTest] comes after a call of [stop()]. *)
Theorem suite_halts_when_stopped (s : TestSuite) (w : world) :
  let w' := exec (TestSuite__call__ s) w in
  let new := calls_during (TestSuite__call__ s) w in
  (∃ started, started `prefix_of` cases_of s ∧
     new = mjoin (run_calls (is_text (result w)) (sys_platform w) <$> started)) ∧
  (shouldStop (result w) = true → w' = w) ∧
  (∀ l1 l2 t, new = l1 ++ CStop :: l2 → CStartTest t ∉ l2) ∧
  (shouldStop (result w) = false →
   (∀ t, t ∈ cases_of s →
         CStop ∉ run_calls (is_text (result w)) (sys_platform w) t) →
   new = mjoin (run_calls (is_text (result w)) (sys_platform w) <$> cases_of s)).
Proof.
  cbn zeta. rewrite calls_during_suite. split; [apply suite_calls_prefix|].
  split; [apply suite_stopped|]. split.
  - intros l1 l2 t. eapply no_start_after_stop.
    apply no_start_when_stopped_suite_calls.
  - intros -> Hno. induction (cases_of s) as [|t ts IH]; [done|].
    cbn [suite_calls]. rewrite bool_decide_eq_false_2.
    + cbn. rewrite IH; [done|]. intros t' Ht'. apply Hno.
      apply elem_of_cons. auto.
    + apply Hno. apply elem_of_cons. auto.
Qed.

(** On the text collector the run of [suite_AB] ends with its first case. *)
Example suite_AB_interrupted :
  calls_during (TestSuite__call__ suite_AB) text_world =
    [CStartTest interrupted; CSetUp interrupted; CTestMethod interrupted;
     CAddError interrupted
       (ExcInfo KeyboardInterrupt "" (Traceback "check" None));
     CStop; CTearDown interrupted; CStopTest interrupted] ∧
  testsRun (result (exec (TestSuite__call__ suite_AB) text_world)) = 1 ∧
  testsRun (result (exec (TestSuite__call__ suite_AB) plain_world)) = 3.
Proof. by vm_compute. Qed.

Lemma suite_halts_when_stopped_witness :
  shouldStop (result stopped_world) = true ∧
  exec (TestSuite__call__ suite_AB) stopped_world = stopped_world ∧
  CStartTest (case0 None None None)
    ∉ [CTearDown interrupted; CStopTest interrupted].
Proof.
  split; [by vm_compute|]. split.
  - apply (proj1 (proj2 (suite_halts_when_stopped suite_AB stopped_world))).
    by vm_compute.
  - apply (proj1 (proj2 (proj2 (suite_halts_when_stopped suite_AB text_world)))
             [CStartTest interrupted; CSetUp interrupted; CTestMethod interrupted;
              CAddError interrupted
                (ExcInfo KeyboardInterrupt "" (Traceback "check" None))]).
    by vm_compute.
Defined.

(** ** [addError] and the interrupt *)

(** C7, as stated, fails on the base collector: [TestResult.addError]
    appends the interrupt to the errors and leaves the stop flag as it is. *)
Lemma interrupt_on_plain_collector :
  exctype interrupt = KeyboardInterrupt ∧
  errors (result (exec (addError interrupted interrupt) plain_world)) =
    [(interrupted, interrupt)] ∧
  shouldStop (result (exec (addError interrupted interrupt) plain_world)) = false.
Proof. by vm_compute. Qed.

(** C7, amended: [addError] appends the error to the collector's errors
    whatever its class; on the text collector, when the class is
    [KeyboardInterrupt] itself, it also calls [stop()], the flag is set and
    a suite run from there on starts nothing; on the base collector, and
    for every other class, the flag is left as it is. *)
Theorem addError_interrupt (t : TestCase) (err : exc_info) (w : world) :
  let w' := exec (addError t err) w in
  errors (result w') = errors (result w) ++ [(t, err)] ∧
  failures (result w') = failures (result w) ∧
  (is_text (result w) = true → exctype err = KeyboardInterrupt →
     calls_during (addError t err) w = [CAddError t err; CStop] ∧
     shouldStop (result w') = true ∧
     ∀ s, exec (TestSuite__call__ s) w' = w') ∧
  (is_text (result w) = false ∨ exctype err ≠ KeyboardInterrupt →
     calls_during (addError t err) w = [CAddError t err] ∧
     shouldStop (result w') = shouldStop (result w)).
Proof.
  cbn zeta.
  destruct (runs_addError (is_text (result w)) (sys_platform w) t err w)
    as (_ & Hc & _ & Hfs & Hes & _ & Hst & _); [done..|].
  fold (exec (addError t err) w) in *.
  unfold calls_during. rewrite Hc, drop_app_length, Hfs, Hes, app_nil_r.
  split; [done|]. split; [done|].
  assert (bool_decide (CStop ∈ [CAddError t err; CStop]) = true ∧
          bool_decide (CStop ∈ [CAddError t err]) = false) as [Hin1 Hin0].
  { split; [apply bool_decide_eq_true_2|apply bool_decide_eq_false_2];
      elem_solve. }
  unfold addError_calls in *.
  destruct (is_text (result w)), (decide (exctype err = KeyboardInterrupt))
    as [Hki|Hki];
    rewrite ?(bool_decide_eq_true_2 _ Hki), ?(bool_decide_eq_false_2 _ Hki) in *;
    cbn [andb] in *; rewrite ?Hin1, ?Hin0, ?orb_true_r, ?orb_false_r in Hst.
  - split; [|intros [?|?]; done]. intros _ _. split; [done|]. split; [done|].
    intros s. by apply suite_stopped.
  - split; [done|]. by intros _.
  - split; [done|]. by intros _.
  - split; [done|]. by intros _.
Qed.

Lemma addError_interrupt_witness :
  is_text (result text_world) = true ∧
  exctype interrupt = KeyboardInterrupt ∧
  shouldStop (result (exec (addError interrupted interrupt) text_world)) = true ∧
  shouldStop (result (exec (addError interrupted (ExcInfo ValueError "" tb0))
                        text_world)) = false.
Proof.
  split; [reflexivity|]. split; [reflexivity|]. split.
  - exact (proj1 (proj2 (proj1 (proj2 (proj2
             (addError_interrupt interrupted interrupt text_world)))
             eq_refl eq_refl))).
  - refine (proj2 (proj2 (proj2 (proj2
             (addError_interrupt interrupted (ExcInfo ValueError "" tb0)
                text_world))) _)).
    right. by vm_compute.
Defined.

(** ** The loader *)

Lemma getTestCaseNames_unfold self c :
  getTestCaseNames self c =
  maybe_sort self
    (foldl append_missing
       (filter (λ n, has_prefix (testMethodPrefix self) n = true) (dir c))
       (getTestCaseNames self <$> c_bases c)).
Proof.
  destruct c as [n m d fn fe dict bases]. cbn [getTestCaseNames c_bases].
  unfold maybe_sort. f_equal.
  generalize (filter (λ n, has_prefix (testMethodPrefix self) n = true)
                (dir (Fixture n m d fn fe dict bases))).
  induction bases as [|b bases IH]; intros acc; [done|]. cbn. apply IH.
Qed.

Lemma dir_names_unfold c :
  dir_names c = dom (c_dict c) ∪ ⋃ (dir_names <$> c_bases c).
Proof.
  destruct c as [n m d fn fe dict bases]. cbn [dir_names c_dict c_bases].
  f_equal. induction bases as [|b bases IH]; [done|]. cbn. by rewrite IH.
Qed.

Lemma elem_of_dir c n : n ∈ dir c ↔ n ∈ dir_names c.
Proof. unfold dir. by rewrite merge_sort_Permutation, elem_of_elements. Qed.

Lemma NoDup_dir c : NoDup (dir c).
Proof. unfold dir. rewrite merge_sort_Permutation. apply NoDup_elements. Qed.

Lemma append_missing_spec (acc inherited : list string) :
  NoDup acc →
  NoDup (append_missing acc inherited) ∧
  ∀ n, n ∈ append_missing acc inherited ↔ n ∈ acc ∨ n ∈ inherited.
Proof.
  unfold append_missing. revert acc.
  induction inherited as [|x l IH]; intros acc Hnd; cbn.
  - split; [done|]. intros n. rewrite elem_of_nil. tauto.
  - case_decide as Hx.
    + destruct (IH acc Hnd) as [Hnd' Hin]. split; [done|].
      intros n. rewrite Hin, elem_of_cons. split; [tauto|].
      intros [?|[->|?]]; auto.
    + destruct (IH (acc ++ [x])) as [Hnd' Hin].
      { apply NoDup_app. split; [done|]. split; [|apply NoDup_singleton].
        intros y Hy ->%list_elem_of_singleton. done. }
      split; [done|]. intros n.
      rewrite Hin, elem_of_app, list_elem_of_singleton, elem_of_cons. tauto.
Qed.

Lemma merge_bases_spec (acc : list string) (inherited : list (list string)) :
  NoDup acc →
  NoDup (foldl append_missing acc inherited) ∧
  ∀ n, n ∈ foldl append_missing acc inherited ↔
       n ∈ acc ∨ ∃ l, l ∈ inherited ∧ n ∈ l.
Proof.
  revert acc. induction inherited as [|l ls IH]; intros acc Hnd; cbn.
  - split; [done|]. intros n. split; [auto|].
    intros [?|(l & Hl & _)]; [done|]. by apply elem_of_nil in Hl.
  - destruct (append_missing_spec acc l Hnd) as [Hnd' Hin].
    destruct (IH _ Hnd') as [Hnd'' Hin']. split; [done|].
    intros n. rewrite Hin', Hin. split.
    + intros [[?|?]|(l' & Hl' & Hn)]; auto.
      * right. exists l. split; [apply elem_of_cons; auto|done].
      * right. exists l'. split; [apply elem_of_cons; auto|done].
    + intros [?|(l' & Hl' & Hn)]; auto.
      apply elem_of_cons in Hl' as [->|Hl']; auto.
      right. by exists l'.
Qed.

Lemma sort_insert_Permutation cmpfunc x l : sort_insert cmpfunc x l ≡ₚ x :: l.
Proof.
  induction l as [|y l IH]; [done|]. cbn [sort_insert].
  case_decide; [|done]. rewrite IH. apply Permutation_swap.
Qed.

Lemma sort_with_Permutation cmpfunc l : sort_with cmpfunc l ≡ₚ l.
Proof.
  unfold sort_with. induction l as [|x l IH]; [done|]. cbn [foldr].
  by rewrite sort_insert_Permutation, IH.
Qed.

(** Names that [cmpfunc] never tells apart are left in their order. *)
Lemma sort_with_ties cmpfunc l :
  (∀ x y, (0 ≤ cmpfunc x y)%Z) → sort_with cmpfunc l = l.
Proof.
  intros Hties. unfold sort_with. induction l as [|x l IH]; [done|].
  cbn [foldr]. rewrite IH. destruct l as [|y l]; [done|]. cbn [sort_insert].
  rewrite decide_False; [done|]. specialize (Hties y x). lia.
Qed.

Lemma maybe_sort_Permutation self l : maybe_sort self l ≡ₚ l.
Proof.
  unfold maybe_sort. destruct (sortTestMethodsUsing self); [|done].
  apply sort_with_Permutation.
Qed.

Lemma dir_names_base c b : b ∈ c_bases c → dir_names b ⊆ dir_names c.
Proof.
  intros Hb n Hn. rewrite (dir_names_unfold c). apply elem_of_union. right.
  apply elem_of_union_list. exists (dir_names b). split; [|done].
  by apply list_elem_of_fmap_2.
Qed.

Lemma getTestCaseNames_spec self c :
  NoDup (getTestCaseNames self c) ∧
  ∀ n, n ∈ getTestCaseNames self c ↔
       n ∈ dir_names c ∧ has_prefix (testMethodPrefix self) n = true.
Proof.
  induction c as [nm m d fn fe dict bases IH] using fixture_nested_ind.
  set (c := Fixture nm m d fn fe dict bases).
  rewrite getTestCaseNames_unfold.
  destruct (merge_bases_spec
    (filter (λ n, has_prefix (testMethodPrefix self) n = true) (dir c))
    (getTestCaseNames self <$> c_bases c)) as [Hnd Hin].
  { apply NoDup_filter, NoDup_dir. }
  split; [by rewrite maybe_sort_Permutation|].
  intros n. rewrite maybe_sort_Permutation, Hin, list_elem_of_filter, elem_of_dir.
  split; [|tauto].
  intros [[? ?]|(l & Hl & Hn)]; [done|].
  apply list_elem_of_fmap in Hl as (b & -> & Hb).
  rewrite Forall_forall in IH. apply (IH b Hb) in Hn as [Hn Hp].
  split; [|done]. by apply (dir_names_base c b).
Qed.

Lemma cmp_le_String_le x y : cmp_le cmp x y ↔ String.le x y.
Proof.
  unfold cmp_le, cmp, String.le, String.leb.
  destruct (String.compare x y); cbn; intuition (try lia; try done).
Qed.

Global Instance cmp_le_total : Total (cmp_le cmp).
Proof.
  intros x y. rewrite !cmp_le_String_le. apply (total String.le).
Qed.

Global Instance cmp_le_trans : Transitive (cmp_le cmp).
Proof.
  intros x y z. rewrite !cmp_le_String_le. apply transitivity.
Qed.

Lemma StronglySorted_weaken {A} (R R' : relation A) (l : list A) :
  (∀ x y, R x y → R' x y) → StronglySorted R l → StronglySorted R' l.
Proof.
  intros HR. induction 1 as [|x l _ IH Hx]; constructor; [done|].
  eapply List.Forall_impl; [|exact Hx]. intros y. apply HR.
Qed.

Lemma cmp_lt_String_le x y :
  ((cmp y x < 0)%Z → String.le y x) ∧ (¬ (cmp y x < 0)%Z → String.le x y).
Proof.
  split.
  - intros Hlt. apply cmp_le_String_le. unfold cmp_le. lia.
  - intros Hge. destruct (total String.le x y) as [|Hyx]; [done|].
    apply cmp_le_String_le in Hyx. unfold cmp_le in Hyx.
    assert (cmp y x = 0%Z) as H0 by lia.
    unfold cmp in H0. destruct (String.compare y x) eqn:Hc; try done.
    apply String.compare_eq_iff in Hc as ->. done.
Qed.

Lemma sort_insert_cmp_sorted (x : string) (l : list string) :
  StronglySorted String.le l → StronglySorted String.le (sort_insert cmp x l).
Proof.
  induction 1 as [|y l Hl IH Hy]; cbn [sort_insert].
  - repeat constructor.
  - destruct (cmp_lt_String_le x y) as [Hlt Hge]. case_decide as Hc.
    + constructor; [done|]. rewrite sort_insert_Permutation.
      constructor; [by apply Hlt|done].
    + specialize (Hge Hc). constructor; [by constructor|].
      constructor; [done|]. eapply List.Forall_impl; [|exact Hy].
      intros z Hz. by transitivity y.
Qed.

Lemma sort_with_cmp_sorted (l : list string) :
  StronglySorted String.le (sort_with cmp l).
Proof.
  unfold sort_with. induction l as [|x l IH]; [constructor|].
  cbn [foldr]. by apply sort_insert_cmp_sorted.
Qed.

Lemma getattr_dir_names (c : fixture) (n : string) :
  n ∈ dir_names c → is_Some (getattr c n).
Proof.
  unfold getattr.
  induction c as [nm m d fn fe dict bases IH] using fixture_nested_ind.
  rewrite dir_names_unfold. cbn [lookup_mro c_dict c_bases].
  destruct (dict !! n) as [x|] eqn:Hown; [by eexists|].
  intros [Hn|Hn]%elem_of_union.
  { apply elem_of_dom in Hn as [x Hx]. congruence. }
  induction IH as [|b bs Hb _ IHbs]; cbn in Hn |- *.
  { by apply elem_of_empty in Hn. }
  destruct (lookup_mro (λ c, c_dict c !! n) b) as [x|] eqn:Hbase; [by eexists|].
  apply elem_of_union in Hn as [Hn|Hn]; [|by apply IHbs].
  apply Hb in Hn as [x Hx]. congruence.
Qed.

Lemma instantiate_name c n t : instantiate c n = Some t → _testMethodName t = n.
Proof.
  unfold instantiate. intros H.
  destruct (getattr c n) as [m|]; [|done]. cbn in H.
  destruct (_setupMetaData _ _ _ _ _) as [md|]; [|done]. cbn in H.
  by injection H as <-.
Qed.

Lemma instantiate_dir_names c n : n ∈ dir_names c → is_Some (instantiate c n).
Proof.
  intros [m Hm]%getattr_dir_names. unfold instantiate. rewrite Hm. cbn.
  destruct (part_of_is_Some (m_doc m)) as [td Htd].
  destruct (part_of_is_Some (c_doc c)) as [fd Hfd].
  unfold _setupMetaData. unfold part_of in Htd, Hfd. rewrite Htd, Hfd. cbn.
  by eexists.
Qed.

Lemma addTests_tests (s : TestSuite) (l : list Test) :
  _tests (addTests s l) = _tests s ++ l.
Proof.
  unfold addTests. revert s. induction l as [|x l IH]; intros s; cbn.
  - by rewrite app_nil_r.
  - rewrite IH. unfold addTest. cbn. by rewrite <- app_assoc.
Qed.

Lemma addTests_suiteName (s : TestSuite) (l : list Test) :
  suiteName (addTests s l) = suiteName s.
Proof.
  unfold addTests. revert s. induction l as [|x l IH]; intros s; cbn; [done|].
  by rewrite IH.
Qed.

Lemma cases_of_tests (s : TestSuite) : cases_of s = flat_cases (_tests s).
Proof. destruct s. apply cases_of_flat. Qed.

Lemma flat_cases_ACase (l : list TestCase) : flat_cases (ACase <$> l) = l.
Proof. induction l as [|c l IH]; cbn; [done|]. by f_equal. Qed.

Lemma loadTestsFromTestCase_spec self c :
  ∃ s, loadTestsFromTestCase self c = Some s ∧
       _testMethodName <$> cases_of s = getTestCaseNames self c ∧
       suiteName s = Some (c_name c).
Proof.
  unfold loadTestsFromTestCase.
  destruct (mapM (instantiate c) (getTestCaseNames self c)) as [tests|] eqn:Hm.
  - cbn. eexists. split; [done|]. split.
    + rewrite cases_of_tests. unfold TestSuite_init.
      rewrite addTests_tests. cbn. rewrite flat_cases_ACase.
      apply mapM_Some_1 in Hm.
      induction Hm as [|n t ns ts Hn _ IH]; cbn; [done|].
      by rewrite IH, (instantiate_name _ _ _ Hn).
    + unfold TestSuite_init. by rewrite addTests_suiteName.
  - exfalso. assert (is_Some (mapM (instantiate c) (getTestCaseNames self c))) as [? ?].
    { apply mapM_is_Some_2, Forall_forall. intros n Hn. cbn.
      apply instantiate_dir_names. by apply getTestCaseNames_spec in Hn as [? _]. }
    congruence.
Qed.

(** C9: [getTestCaseNames] returns each name once; the names are those
    [dir] finds in the class or in an ancestor that start with the prefix;
    with the default [cmp] they are in string order; the suite
    [loadTestsFromTestCase] builds runs one test case per name, in that
    order; and the checks [testB], [testA], [testC] come out as [testA],
    [testB], [testC], also when a derived class overrides one of them. *)
Theorem getTestCaseNames_once_in_order (self : TestLoader) (c : fixture) :
  let names := getTestCaseNames self c in
  NoDup names ∧
  (∀ n, n ∈ names ↔
        n ∈ dir_names c ∧ has_prefix (testMethodPrefix self) n = true) ∧
  (sortTestMethodsUsing self = Some cmp → StronglySorted String.le names) ∧
  (∃ s, loadTestsFromTestCase self c = Some s ∧
        _testMethodName <$> cases_of s = names) ∧
  getTestCaseNames defaultTestLoader demo_fixture = ["testA"; "testB"; "testC"] ∧
  getTestCaseNames defaultTestLoader demo_sub =
    ["test0"; "testA"; "testB"; "testC"].
Proof.
  cbn zeta. destruct (getTestCaseNames_spec self c) as [Hnd Hin].
  split; [done|]. split; [done|]. split; [|split].
  - intros Hcmp. rewrite getTestCaseNames_unfold. unfold maybe_sort.
    rewrite Hcmp. apply sort_with_cmp_sorted.
  - destruct (loadTestsFromTestCase_spec self c) as (s & Hs & Hn & _). eauto.
  - by vm_compute.
Qed.

Lemma getTestCaseNames_once_in_order_witness :
  sortTestMethodsUsing defaultTestLoader = Some cmp ∧
  StronglySorted String.le (getTestCaseNames defaultTestLoader demo_sub).
Proof.
  split; [reflexivity|].
  exact (proj1 (proj2 (proj2
           (getTestCaseNames_once_in_order defaultTestLoader demo_sub))) eq_refl).
Defined.

Example demo_suite_order :
  (λ s, _testMethodName <$> cases_of s)
    <$> loadTestsFromTestCase defaultTestLoader demo_fixture =
  Some ["testA"; "testB"; "testC"].
Proof. by vm_compute. Qed.


(** The scenario of the design document: the two checks of [two_checks] run
    on the terse text collector. *)
Example two_checks_scenario :
  ∃ s, loadTestsFromTestCase defaultTestLoader two_checks = Some s ∧
    let r := result (exec (TestSuite__call__ s) text_world) in
    _streamOut <$> text r = Some "F." ∧
    describe <$> cases_of s = ["Two checks, "; "Two checks, passes"] ∧
    id_ <$> cases_of s = ["mod.Two.testFail"; "mod.Two.testPass"] ∧
    testsRun r = 2 ∧ length (failures r) = 1 ∧ errors r = [] ∧
    TestResult.wasSuccessful r = false.
Proof. eexists. split; [by vm_compute|]. by vm_compute. Qed.

(** * Further properties of the code *)

(** ** The collector after runs *)

Lemma wasSuccessful_iff (r : TestResult) :
  TestResult.wasSuccessful r = true ↔ failures r = [] ∧ errors r = [].
Proof.
  unfold TestResult.wasSuccessful.
  rewrite andb_true_iff, !bool_decide_eq_true.
  destruct (failures r), (errors r); cbn; intuition (try done; try lia).
Qed.

Lemma wasSuccessful_app (r r' : TestResult) fs es :
  failures r' = failures r ++ fs → errors r' = errors r ++ es →
  TestResult.wasSuccessful r' =
  TestResult.wasSuccessful r && bool_decide (fs = []) && bool_decide (es = []).
Proof.
  intros Hf He. apply eq_true_iff_eq.
  rewrite !andb_true_iff, !wasSuccessful_iff, !bool_decide_eq_true, Hf, He.
  split.
  - intros [[? ?]%app_eq_nil [? ?]%app_eq_nil]. done.
  - intros [[[-> ->] ->] ->]. done.
Qed.

Lemma passes_new (p : string) (t : TestCase) :
  bool_decide (new_failures p t = []) && bool_decide (new_errors p t = []) =
  passes t.
Proof.
  unfold new_failures, new_errors, passes, is_failure, raised_by.
  destruct (setUp t), (_testMethod t), (tearDown t);
    try destruct (issubclass _ _); done.
Qed.

(** X1: one run of a test case counts one test, whatever happens, and
    leaves the collector successful exactly if it was successful before and
    [setUp], the check and [tearDown] all returned. *)
Theorem run_keeps_success (t : TestCase) (w : world) :
  let r' := result (exec (__call__ t) w) in
  testsRun r' = testsRun (result w) + 1 ∧
  TestResult.wasSuccessful r' = TestResult.wasSuccessful (result w) && passes t ∧
  (passes t = true ↔ CAddSuccess t ∈ calls_during (__call__ t) w).
Proof.
  cbn zeta. destruct (__call___spec t w) as (_ & _ & Hf & He & Hn & _).
  split; [done|]. split.
  - rewrite (wasSuccessful_app _ _ _ _ Hf He), <- andb_assoc. by rewrite passes_new.
  - rewrite calls_during___call__, CAddSuccess_run_calls. unfold passes.
    rewrite !andb_true_iff, !bool_decide_eq_true. tauto.
Qed.

Lemma executed_stopped txt p ts : executed txt p true ts = [].
Proof. by destruct ts. Qed.

Lemma suite_calls_executed txt p stopped ts :
  suite_calls txt p stopped ts =
  mjoin (run_calls txt p <$> executed txt p stopped ts).
Proof.
  revert stopped. induction ts as [|t ts IH]; intros stopped; [done|].
  cbn [suite_calls executed]. destruct stopped; [done|]. cbn. by rewrite IH.
Qed.

Lemma executed_app txt p stopped ts ts' :
  executed txt p stopped (ts ++ ts') =
  executed txt p stopped ts ++
  executed txt p
    (stopped || bool_decide (CStop ∈ suite_calls txt p stopped ts)) ts'.
Proof.
  revert stopped. induction ts as [|t ts IH]; intros stopped;
    cbn [executed suite_calls app].
  - rewrite bool_decide_eq_false_2 by apply not_elem_of_nil.
    by rewrite orb_false_r.
  - destruct stopped; cbn [orb app].
    + by rewrite executed_stopped.
    + by rewrite IH, bool_decide_CStop_app.
Qed.

Lemma executed_prefix txt p stopped ts :
  executed txt p stopped ts `prefix_of` ts.
Proof.
  revert stopped. induction ts as [|t ts IH]; intros stopped; [done|].
  cbn. destruct stopped; [apply prefix_nil|]. by apply prefix_cons.
Qed.

Lemma exctype___exc_info p e : exctype (__exc_info p e) = exctype e.
Proof.
  unfold __exc_info. case_decide; [done|].
  by destruct (tb e) as [? [?|]].
Qed.

Lemma CStop_run_calls txt p t :
  bool_decide (CStop ∈ run_calls txt p t) = interrupts txt t.
Proof.
  apply eq_true_iff_eq. rewrite bool_decide_eq_true.
  unfold interrupts, is_interrupt, is_failure, run_calls, check_calls,
    tearDown_calls, success_calls, addError_calls.
  destruct txt, (setUp t) as [su|], (_testMethod t) as [tm|],
    (tearDown t) as [td|]; cbn [andb orb negb];
    try destruct (issubclass _ _); cbn [andb orb negb];
    rewrite ?exctype___exc_info;
    repeat (case_bool_decide; cbn [andb orb negb]);
    rewrite ?elem_of_app, ?elem_of_cons, ?elem_of_nil;
    intuition (first [congruence | discriminate | idtac]).
Qed.


Lemma run_tests_step_fully (tests : list Test) :
  Forall (holds_of_suite suite_runs_fully) tests →
  ∀ w,
    let ex := executed (is_text (result w)) (sys_platform w)
                (shouldStop (result w)) (flat_cases tests) in
    step w (exec (run_tests tests) w)
      (suite_calls (is_text (result w)) (sys_platform w)
         (shouldStop (result w)) (flat_cases tests))
      (mjoin (new_failures (sys_platform w) <$> ex))
      (mjoin (new_errors (sys_platform w) <$> ex)) (length ex).
Proof.
  induction 1 as [|test tests Htest _ IH]; intros w; cbn zeta.
  { apply step_refl. }
  destruct (shouldStop (result w)) eqn:Hstop.
  { unfold exec. rewrite run_tests_stopped, suite_calls_stopped, executed_stopped
      by done. apply step_refl. }
  set (txt := is_text (result w)). set (p := sys_platform w).
  assert (step w (exec (Test__call__ test) w)
      (suite_calls txt p false (Test_cases test))
      (mjoin (new_failures p <$> executed txt p false (Test_cases test)))
      (mjoin (new_errors p <$> executed txt p false (Test_cases test)))
      (length (executed txt p false (Test_cases test)))) as Hstep.
  { destruct test as [c|s]; cbn [Test__call__ Test_cases suite_calls executed].
    - cbn. rewrite !app_nil_r. apply __call___spec.
    - specialize (Htest w). cbn zeta in Htest. by rewrite Hstop in Htest. }
  set (w1 := exec (Test__call__ test) w) in *.
  replace (exec (run_tests (test :: tests)) w) with (exec (run_tests tests) w1).
  2:{ unfold w1, exec. cbn. unfold mbind, M_bind, get_result. rewrite Hstop.
      by destruct (Test__call__ test w). }
  unfold flat_cases. cbn [flat_map].
  rewrite suite_calls_app, executed_app, !fmap_app, !join_app, length_app.
  eapply step_trans; [exact Hstep|].
  specialize (IH w1). cbn zeta in IH.
  destruct Hstep as (_ & Hpl & _ & _ & _ & Hst & Htx).
  rewrite Hpl, Htx, Hst, Hstop in IH. exact IH.
Qed.

Lemma suite_runs_fully_all (s : TestSuite) : suite_runs_fully s.
Proof.
  induction s as [cls tests m n IH] using TestSuite_nested_ind.
  intros w. rewrite TestSuite__call___loop, cases_of_flat.
  by apply run_tests_step_fully.
Qed.

Lemma executed_all txt p ts :
  (∀ t, t ∈ ts → interrupts txt t = false) → executed txt p false ts = ts.
Proof.
  induction ts as [|t ts IH]; intros Hno; [done|]. cbn [executed].
  rewrite CStop_run_calls, (Hno t) by (apply elem_of_cons; auto).
  rewrite IH; [done|]. intros t' Ht'. apply Hno, elem_of_cons. auto.
Qed.

Lemma passes_joined (p : string) (ts : list TestCase) :
  bool_decide (mjoin (new_failures p <$> ts) = []) &&
  bool_decide (mjoin (new_errors p <$> ts) = []) = forallb passes ts.
Proof.
  induction ts as [|t ts IH]; [done|].
  change (bool_decide (new_failures p t ++ mjoin (new_failures p <$> ts) = []) &&
          bool_decide (new_errors p t ++ mjoin (new_errors p <$> ts) = []) =
          passes t && forallb passes ts).
  rewrite <- IH, <- (passes_new p t). apply eq_true_iff_eq.
  rewrite !andb_true_iff, !bool_decide_eq_true.
  split.
  - intros [[? ?]%app_eq_nil [? ?]%app_eq_nil]. done.
  - intros [[-> ->] [-> ->]]. done.
Qed.

(** X2: a suite run counts one test per executed case; the executed cases
    are an initial part of the cases below the suite, so the count grows by
    at most [countTestCases]; the collector stays successful exactly if it
    was and every executed case passes; and when the flag is clear and no
    case hands a [KeyboardInterrupt] to a text collector, every case is
    executed and the count grows by exactly [countTestCases]. *)
Theorem suite_run_counts (s : TestSuite) (w : world) :
  let r' := result (exec (TestSuite__call__ s) w) in
  let ex := executed (is_text (result w)) (sys_platform w)
              (shouldStop (result w)) (cases_of s) in
  ex `prefix_of` cases_of s ∧
  testsRun r' = testsRun (result w) + length ex ∧
  testsRun r' ≤ testsRun (result w) + countTestCases s ∧
  TestResult.wasSuccessful r' =
    TestResult.wasSuccessful (result w) && forallb passes ex ∧
  (shouldStop (result w) = false →
   (∀ t, t ∈ cases_of s → interrupts (is_text (result w)) t = false) →
   ex = cases_of s ∧
   testsRun r' = testsRun (result w) + countTestCases s ∧
   shouldStop r' = false).
Proof.
  cbn zeta. pose proof (suite_runs_fully_all s w) as Hs. cbn zeta in Hs.
  destruct Hs as (_ & _ & Hf & He & Hn & Hst & _).
  pose proof (executed_prefix (is_text (result w)) (sys_platform w)
                (shouldStop (result w)) (cases_of s)) as Hpre.
  split; [done|]. split; [done|]. split; [|split].
  - rewrite Hn, countTestCases_length. apply prefix_length in Hpre. lia.
  - rewrite (wasSuccessful_app _ _ _ _ Hf He), <- andb_assoc.
    by rewrite passes_joined.
  - intros Hstop Hno. rewrite Hstop in *.
    rewrite (executed_all _ _ _ Hno) in *. split; [done|].
    split; [by rewrite Hn, countTestCases_length|].
    rewrite Hst. cbn. apply bool_decide_eq_false_2.
    rewrite suite_calls_executed, (executed_all _ _ _ Hno).
    intros Hin. apply list_elem_of_join in Hin as (l & Hin & Hl).
    apply list_elem_of_fmap in Hl as (t & -> & Ht).
    assert (interrupts (is_text (result w)) t = true) as Hi.
    { rewrite <- (CStop_run_calls _ (sys_platform w)).
      by apply bool_decide_eq_true_2. }
    rewrite (Hno t Ht) in Hi. done.
Qed.

Lemma suite_run_counts_witness :
  shouldStop (result plain_world) = false ∧
  testsRun (result (exec (TestSuite__call__ suite_AB) plain_world)) =
    0 + countTestCases suite_AB ∧
  countTestCases suite_AB = 3.
Proof.
  split; [reflexivity|]. split; [|reflexivity].
  refine (proj1 (proj2 (proj2 (proj2 (proj2 (proj2
            (suite_run_counts suite_AB plain_world)))) eq_refl _))).
  intros t _. reflexivity.
Defined.

(** ** The life cycle of a test case: [__call__] and [debug] *)

Lemma count_call_cons c c' l :
  count_call c (c' :: l) = (if decide (c' = c) then 1 else 0) + count_call c l.
Proof. unfold count_call. rewrite filter_cons. by case_decide. Qed.

Lemma count_call_app c l l' :
  count_call c (l ++ l') = count_call c l + count_call c l'.
Proof. unfold count_call. by rewrite filter_app, length_app. Qed.

Lemma count_call_nil c : count_call c [] = 0.
Proof. done. Qed.

Ltac count_calls :=
  rewrite ?count_call_app, ?count_call_cons, ?count_call_nil;
  repeat (case_decide; try discriminate); try done.

(** X3: every run of a test case starts with [startTest], calls [setUp]
    once and ends with [stopTest]; the check and [tearDown] are each called
    exactly once when [setUp] returned, also when the check raised, and not
    at all when [setUp] raised. *)
Theorem tearDown_follows_setUp (t : TestCase) (w : world) :
  let new := calls_during (__call__ t) w in
  let ran := if setUp t is None then 1 else 0 in
  head new = Some (CStartTest t) ∧
  last new = Some (CStopTest t) ∧
  count_call (CStartTest t) new = 1 ∧
  count_call (CStopTest t) new = 1 ∧
  count_call (CSetUp t) new = 1 ∧
  count_call (CTestMethod t) new = ran ∧
  count_call (CTearDown t) new = ran.
Proof.
  cbn zeta. rewrite calls_during___call__.
  split; [done|]. split; [apply last_run_calls|].
  repeat split; open_run_calls; count_calls.
Qed.

Lemma debug_spec (t : TestCase) (w : world) :
  debug t w = (first_raised t,
               mkWorld (sys_platform w) (result w) (calls w ++ debug_calls t)).
Proof.
  unfold debug, first_raised, debug_calls, invoke, log, mbind, M_bind, mret, M_ret.
  destruct w as [p r l].
  destruct (setUp t), (_testMethod t), (tearDown t); cbn;
    by rewrite <- ?app_assoc.
Qed.

Lemma first_raised_None (t : TestCase) : first_raised t = None ↔ passes t = true.
Proof.
  unfold first_raised, passes. rewrite !andb_true_iff, !bool_decide_eq_true.
  destruct (setUp t), (_testMethod t), (tearDown t); intuition congruence.
Qed.

(** X4: [debug] calls the hooks in order until one raises and passes that
    exception on: the check is not called after a failing [setUp], nor
    [tearDown] after a failing check (unlike [__call__], which calls
    [tearDown] whenever [setUp] returned); the collector is not touched. *)
Theorem debug_stops_at_first_exception (t : TestCase) (w : world) :
  (debug t w).1 = first_raised t ∧
  ((debug t w).1 = None ↔ passes t = true) ∧
  result (exec (debug t) w) = result w ∧
  calls_during (debug t) w = debug_calls t ∧
  (CTestMethod t ∈ calls_during (debug t) w ↔ setUp t = None) ∧
  (CTearDown t ∈ calls_during (debug t) w ↔
     setUp t = None ∧ _testMethod t = None) ∧
  (CTearDown t ∈ calls_during (__call__ t) w ↔ setUp t = None).
Proof.
  unfold calls_during at 1 2 3, exec. rewrite debug_spec. cbn [fst snd result calls].
  rewrite drop_app_length, first_raised_None, calls_during___call__.
  split; [done|]. split; [done|]. split; [done|]. split; [done|].
  unfold debug_calls, run_calls, check_calls, tearDown_calls, success_calls,
    addError_calls.
  destruct (setUp t), (_testMethod t), (tearDown t);
    repeat match goal with
      | |- context [if ?b then _ else _] => destruct b
      end; elem_solve.
Qed.

Lemma debugged_app (ts ts' : list TestCase) :
  debugged (ts ++ ts') =
  debugged ts ++ (if debug_outcome ts is None then debugged ts' else []).
Proof.
  induction ts as [|t ts IH]; [done|]. cbn.
  destruct (first_raised t); cbn; [done|]. by rewrite IH.
Qed.

Lemma debug_outcome_app (ts ts' : list TestCase) :
  debug_outcome (ts ++ ts') =
  if debug_outcome ts is Some e then Some e else debug_outcome ts'.
Proof.
  induction ts as [|t ts IH]; [done|]. cbn. by destruct (first_raised t).
Qed.

Lemma debug_tests_spec (tests : list Test) :
  Forall (holds_of_suite (λ s, debugs (TestSuite_debug s) (cases_of s))) tests →
  debugs (debug_tests tests) (flat_cases tests).
Proof.
  induction 1 as [|test tests Htest _ IH]; intros w.
  { cbn. unfold mret, M_ret. destruct w. cbn. by rewrite app_nil_r. }
  assert (debugs (Test_debug test) (Test_cases test)) as Hstep.
  { destruct test as [c|s]; [|exact Htest]. intros w0.
    cbn [Test_debug Test_cases debugged debug_outcome]. rewrite debug_spec.
    destruct (first_raised c); cbn; by rewrite app_nil_r. }
  cbn [debug_tests]. unfold mbind, M_bind. rewrite (Hstep w).
  unfold flat_cases. cbn [flat_map].
  rewrite debugged_app, debug_outcome_app.
  destruct (debug_outcome (Test_cases test)) as [e|].
  - unfold mret, M_ret. by rewrite app_nil_r.
  - rewrite IH. cbn [sys_platform result calls].
    by rewrite fmap_app, join_app, app_assoc.
Qed.

Lemma TestSuite_debug_spec (s : TestSuite) : debugs (TestSuite_debug s) (cases_of s).
Proof.
  induction s as [cls tests m n IH] using TestSuite_nested_ind.
  rewrite cases_of_flat.
  change (TestSuite_debug (mkTestSuite cls tests m n)) with (debug_tests tests).
  by apply debug_tests_spec.
Qed.

Lemma debug_outcome_None (ts : list TestCase) :
  debug_outcome ts = None ↔ forallb passes ts = true.
Proof.
  induction ts as [|t ts IH]; [done|]. cbn.
  rewrite andb_true_iff, <- IH, <- first_raised_None.
  destruct (first_raised t); intuition congruence.
Qed.

Lemma debugged_prefix (ts : list TestCase) : debugged ts `prefix_of` ts.
Proof.
  induction ts as [|t ts IH]; [done|]. cbn. apply prefix_cons.
  destruct (first_raised t); [apply prefix_nil|done].
Qed.

(** X5: [TestSuite.debug] runs [debug] on the cases below the suite in
    tree order, up to and including the first one with a hook that raises,
    and passes that exception on; it returns normally exactly if every case
    passes; it never looks at the collector, so it also runs with the stop
    flag set, where [__call__] runs nothing. *)
Theorem suite_debug_stops_at_first_exception (s : TestSuite) (w : world) :
  (TestSuite_debug s w).1 = debug_outcome (cases_of s) ∧
  ((TestSuite_debug s w).1 = None ↔ forallb passes (cases_of s) = true) ∧
  debugged (cases_of s) `prefix_of` cases_of s ∧
  calls_during (TestSuite_debug s) w =
    mjoin (debug_calls <$> debugged (cases_of s)) ∧
  result (exec (TestSuite_debug s) w) = result w ∧
  (shouldStop (result w) = true →
   calls_during (TestSuite__call__ s) w = []).
Proof.
  unfold calls_during at 1, exec at 1 2. rewrite TestSuite_debug_spec.
  cbn [fst snd result calls]. rewrite drop_app_length, debug_outcome_None.
  repeat split; try done; [apply debugged_prefix|].
  intros Hstop. unfold calls_during. rewrite suite_stopped by done.
  by rewrite drop_all.
Qed.

Lemma suite_debug_stops_at_first_exception_witness :
  shouldStop (result stopped_world) = true ∧
  calls_during (TestSuite__call__ suite_A) stopped_world = [] ∧
  calls_during (TestSuite_debug suite_A) stopped_world =
    [CSetUp (case0 None None None); CTestMethod (case0 None None None);
     CTearDown (case0 None None None)].
Proof.
  split; [by vm_compute|]. split.
  - apply (proj2 (proj2 (proj2 (proj2 (proj2
             (suite_debug_stops_at_first_exception suite_A stopped_world)))))).
    by vm_compute.
  - by vm_compute.
Defined.

(** ** The assertion methods *)

Lemma issubclass_refl (c : pyclass) : issubclass c c = true.
Proof. unfold issubclass. apply bool_decide_eq_true, elem_of_cons. by left. Qed.

(** A check that raises [failureException] itself is recorded as a failure. *)
Lemma failure_raised_recorded (t : TestCase) (w : world) (e : exc_info) :
  setUp t = None → exctype e = failureException t →
  calls_during (__call__ (with_check t (Some e))) w =
    [CStartTest (with_check t (Some e)); CSetUp (with_check t (Some e));
     CTestMethod (with_check t (Some e));
     CAddFailure (with_check t (Some e)) (__exc_info (sys_platform w) e);
     CTearDown (with_check t (Some e))] ++
    tearDown_calls (is_text (result w)) (sys_platform w) (with_check t (Some e)) ++
    [CStopTest (with_check t (Some e))].
Proof.
  intros Hs He. rewrite calls_during___call__.
  unfold run_calls, check_calls, success_calls. cbn [setUp _testMethod with_check
    failureException]. rewrite Hs, He, issubclass_refl. by list_norm.
Qed.

(** X6: [fail] always raises; [failIf] raises exactly on a true value,
    [failUnless] on a false one, [failUnlessEqual] on different values and
    [failIfEqual] on equal ones; what they raise is [failureException]
    and nothing else, with the message given (none stands for no text) or,
    for the last two when none or an empty one is given, the two values
    around [!=] or [==]; so a check that one of them ends is recorded as a
    failure, never as an error, whatever class [failureException] is set
    to. *)
Theorem assertions_recorded_as_failures {A} `{EqDecision A} (str : A → string)
    (t : TestCase) (w : world) (expr : bool) (first second : A)
    (msg : option string) (tb : traceback) (o : outcome) :
  setUp t = None →
  o ∈ [fail t msg tb; failIf t expr msg tb; failUnless t expr msg tb;
       failUnlessEqual str t first second msg tb;
       failIfEqual str t first second msg tb] →
  (∀ e, o = Some e →
     exctype e = failureException t ∧
     CAddFailure (with_check t o) (__exc_info (sys_platform w) e)
       ∈ calls_during (__call__ (with_check t o)) w ∧
     ∀ err, CAddError (with_check t o) err ∈ calls_during (__call__ (with_check t o)) w →
            ∃ e', tearDown t = Some e' ∧ err = __exc_info (sys_platform w) e') ∧
  fail t msg tb = Some (ExcInfo (failureException t) (default "" msg) tb) ∧
  failIf t expr msg tb =
    (if expr then Some (ExcInfo (failureException t) (default "" msg) tb)
     else None) ∧
  failUnless t expr msg tb =
    (if expr then None
     else Some (ExcInfo (failureException t) (default "" msg) tb)) ∧
  (first = second → failUnlessEqual str t first second msg tb = None) ∧
  (first ≠ second →
   failUnlessEqual str t first second msg tb =
     Some (ExcInfo (failureException t)
             (match msg with
              | Some m => if decide (m = "") then str first +:+ " != " +:+ str second
                          else m
              | None => str first +:+ " != " +:+ str second
              end) tb)) ∧
  (first ≠ second → failIfEqual str t first second msg tb = None) ∧
  (first = second →
   failIfEqual str t first second msg tb =
     Some (ExcInfo (failureException t)
             (match msg with
              | Some m => if decide (m = "") then str first +:+ " == " +:+ str second
                          else m
              | None => str first +:+ " == " +:+ str second
              end) tb)).
Proof.
  intros Hs Ho. split.
  - intros e ->.
    assert (exctype e = failureException t) as He.
    { unfold fail, failIf, failUnless, failUnlessEqual, failIfEqual,
        raise_failure in Ho.
      repeat (apply elem_of_cons in Ho as [Ho|Ho]);
        [..|by apply elem_of_nil in Ho];
        repeat case_match; simplify_eq; done. }
    split; [done|]. rewrite (failure_raised_recorded t w e Hs He).
    split; [elem_solve|].
    intros err. unfold tearDown_calls, addError_calls. cbn [tearDown with_check].
    destruct (tearDown t) as [e'|]; [destruct (_ && _)|]; elem_solve;
      simplify_eq; eauto.
  - unfold fail, failIf, failUnless, failUnlessEqual, failIfEqual,
      raise_failure, msg_or.
    split; [done|]. split; [done|]. split; [by destruct expr|].
    repeat split; intros Heq; repeat case_decide; try done; by destruct msg.
Qed.

Lemma assertions_recorded_as_failures_witness :
  setUp (case0 None None None) = None ∧
  CAddFailure
    (with_check (case0 None None None)
       (failUnlessEqual id (case0 None None None) "x" "y" None tb0))
    (ExcInfo AssertionError "x != y" (Traceback "check" None))
  ∈ calls_during
      (__call__ (with_check (case0 None None None)
         (failUnlessEqual id (case0 None None None) "x" "y" None tb0)))
      plain_world.
Proof.
  split; [reflexivity|].
  refine (proj1 (proj2 (proj1
    (assertions_recorded_as_failures id (case0 None None None) plain_world
       true "x" "y" None tb0
       (failUnlessEqual id (case0 None None None) "x" "y" None tb0)
       eq_refl _) (ExcInfo AssertionError "x != y" tb0) eq_refl))).
  rewrite !elem_of_cons. right. right. right. left. reflexivity.
Defined.

(** X7: [failUnlessRaises] ends normally exactly when the call raises an
    exception of [excClass] or of a class derived from it; when the call
    returns, it raises [failureException] with the name of [excClass] as
    message, and the check is recorded as a failure; any other exception
    passes through unchanged, and the check is then recorded as an error
    unless the exception's class derives from [failureException]. *)
Theorem failUnlessRaises_outcomes (t : TestCase) (w : world)
    (excClass : pyclass) (callableObj : outcome) (tb : traceback) :
  setUp t = None →
  let o := failUnlessRaises t excClass callableObj tb in
  let t' := with_check t o in
  let new := calls_during (__call__ t') w in
  (o = None ↔
     ∃ e, callableObj = Some e ∧ issubclass (exctype e) excClass = true) ∧
  (callableObj = None →
     o = Some (ExcInfo (failureException t) (cls_name excClass) tb) ∧
     CAddFailure t'
       (__exc_info (sys_platform w)
          (ExcInfo (failureException t) (cls_name excClass) tb)) ∈ new) ∧
  (∀ e, callableObj = Some e → issubclass (exctype e) excClass = false →
     o = Some e ∧
     (issubclass (exctype e) (failureException t) = false →
        CAddError t' (__exc_info (sys_platform w) e) ∈ new ∧
        ∀ err, CAddFailure t' err ∉ new) ∧
     (issubclass (exctype e) (failureException t) = true →
        CAddFailure t' (__exc_info (sys_platform w) e) ∈ new)).
Proof.
  intros Hs. cbn zeta. rewrite calls_during___call__.
  unfold failUnlessRaises, raise_failure.
  destruct callableObj as [e|].
  - destruct (issubclass (exctype e) excClass) eqn:Hsub.
    + split; [split; [eauto|done]|]. split; [done|].
      intros e' [= <-]. congruence.
    + split.
      { split; [done|]. intros (e' & [= <-] & ?). congruence. }
      split; [done|]. intros e' [= <-] _. split; [done|].
      unfold run_calls, check_calls, tearDown_calls, success_calls,
        addError_calls.
      cbn [setUp _testMethod tearDown failureException with_check].
      rewrite Hs. split; intros ->.
      * split; [elem_solve|]. intros err.
        destruct (tearDown t); repeat match goal with
          | |- context [if ?b then _ else _] => destruct b
          end; elem_solve.
      * elem_solve.
  - split.
    { split; [done|]. intros (e' & ? & _). done. }
    split; [|done]. intros _. split; [done|].
    unfold run_calls, check_calls.
    cbn [setUp _testMethod failureException with_check exctype default].
    rewrite Hs, issubclass_refl. elem_solve.
Qed.

Lemma failUnlessRaises_outcomes_witness :
  setUp (case0 None None None) = None ∧
  failUnlessRaises (case0 None None None) Exception
    (raising ValueError "bad") tb0 = None ∧
  failUnlessRaises (case0 None None None) KeyboardInterrupt
    (raising ValueError "bad") tb0 = raising ValueError "bad".
Proof.
  pose proof (failUnlessRaises_outcomes (case0 None None None) plain_world
                Exception (raising ValueError "bad") tb0 eq_refl) as H1.
  pose proof (failUnlessRaises_outcomes (case0 None None None) plain_world
                KeyboardInterrupt (raising ValueError "bad") tb0 eq_refl) as H2.
  cbn zeta in H1, H2.
  split; [reflexivity|]. split.
  - apply (proj1 H1). eexists. split; [reflexivity|]. by vm_compute.
  - refine (proj1 (proj2 (proj2 H2) _ eq_refl _)). by vm_compute.
Defined.

(** ** The name map of a suite *)

Lemma getTestForName_addTests (s : TestSuite) (l : list Test) (k : string) :
  getTestForName (addTests s l) k =
  match last (filter (λ t, key_of t = k) l) with
  | Some t => Some t
  | None => getTestForName s k
  end.
Proof.
  unfold addTests. revert s. induction l as [|x l IH]; intros s; [done|].
  cbn [foldl]. rewrite IH, filter_cons. unfold getTestForName, addTest.
  cbn [_testMap]. case_decide as Hk.
  - rewrite last_cons. destruct (last (filter _ l)); [done|].
    subst k. by rewrite lookup_insert_eq.
  - destruct (last (filter _ l)); [done|]. by rewrite lookup_insert_ne.
Qed.

Lemma filter_none {A} (P : A → Prop) `{∀ x, Decision (P x)} (l : list A) :
  (∀ x, x ∈ l → ¬ P x) → filter P l = [].
Proof.
  induction l as [|x l IH]; intros Hno; [done|]. rewrite filter_cons.
  rewrite decide_False by (apply Hno, elem_of_cons; auto).
  apply IH. intros y Hy. apply Hno, elem_of_cons. auto.
Qed.

Lemma getTestForName_init (cls : string) (tests : list Test)
    (name : option string) (k : string) :
  getTestForName (TestSuite_init cls tests name) k =
  last (filter (λ t, key_of t = k) tests).
Proof.
  unfold TestSuite_init. rewrite getTestForName_addTests.
  destruct (last _); [done|]. apply lookup_empty.
Qed.

Lemma TestSuite_init_tests (cls : string) (tests : list Test)
    (name : option string) :
  _tests (TestSuite_init cls tests name) = tests.
Proof. unfold TestSuite_init. by rewrite addTests_tests. Qed.

Lemma last_filter_own_key (tests : list Test) (t : Test) :
  NoDup (key_of <$> tests) → t ∈ tests →
  last (filter (λ t', key_of t' = key_of t) tests) = Some t.
Proof.
  intros Hnd Ht.
  induction tests as [|x tests IH]; [by apply elem_of_nil in Ht|].
  cbn [fmap list_fmap] in Hnd. apply NoDup_cons in Hnd as [Hx Hnd].
  rewrite filter_cons. apply elem_of_cons in Ht as [->|Ht].
  - rewrite decide_True by done.
    replace (filter (λ t, key_of t = key_of x) tests) with (@nil Test); [done|].
    symmetry. apply filter_none. intros y Hy Hk.
    apply Hx. rewrite <- Hk. by apply list_elem_of_fmap_2.
  - rewrite decide_False.
    + by apply IH.
    + intros Hk. apply Hx. rewrite Hk. by apply list_elem_of_fmap_2.
Qed.

Lemma last_filter_None (tests : list Test) (k : string) :
  last (filter (λ t, key_of t = k) tests) = None ↔
  ∀ t, t ∈ tests → key_of t ≠ k.
Proof.
  rewrite last_None. split.
  - intros Hnil t Ht Hk.
    assert (t ∈ filter (λ t, key_of t = k) tests) as Hin
      by (by apply list_elem_of_filter).
    rewrite Hnil in Hin. by apply elem_of_nil in Hin.
  - intros Hno. by apply filter_none.
Qed.

(** X8: in a suite built from a sequence of children, the children are
    kept in order, and [getTestForName] returns, for a key, the last child
    filed under that key; it fails (the [KeyError]) exactly for the keys of
    no child; what it returns is always a direct child with that key; and
    when all the keys differ every child is found under its own key. *)
Theorem suite_name_lookup (cls : string) (tests : list Test)
    (name : option string) (k : string) :
  let s := TestSuite_init cls tests name in
  _tests s = tests ∧
  getTestForName s k = last (filter (λ t, key_of t = k) tests) ∧
  (getTestForName s k = None ↔ ∀ t, t ∈ tests → key_of t ≠ k) ∧
  (∀ t, getTestForName s k = Some t → t ∈ _tests s ∧ key_of t = k) ∧
  (NoDup (key_of <$> tests) →
   ∀ t, t ∈ tests → getTestForName s (key_of t) = Some t).
Proof.
  cbn zeta. rewrite getTestForName_init, TestSuite_init_tests.
  split; [done|]. split; [done|]. split; [apply last_filter_None|]. split.
  - intros t Ht. apply last_Some_elem_of, list_elem_of_filter in Ht. tauto.
  - intros Hnd t Ht. rewrite getTestForName_init.
    by apply last_filter_own_key.
Qed.

(** ** The loader, continued *)

Lemma append_missing_present (acc inherited : list string) :
  (∀ n, n ∈ inherited → n ∈ acc) → append_missing acc inherited = acc.
Proof.
  unfold append_missing. induction inherited as [|x l IH]; intros Hin; [done|].
  cbn [foldl]. rewrite decide_True by (apply Hin, elem_of_cons; auto).
  apply IH. intros n Hn. apply Hin, elem_of_cons. auto.
Qed.

Lemma StronglySorted_filter {A} (R : relation A) (P : A → Prop)
    `{∀ x, Decision (P x)} (l : list A) :
  StronglySorted R l → StronglySorted R (filter P l).
Proof.
  induction 1 as [|x l _ IH Hx]; [constructor|]. rewrite filter_cons.
  case_decide; [|done]. constructor; [done|].
  rewrite Forall_forall in Hx |- *. intros y [_ Hy]%list_elem_of_filter. auto.
Qed.

Lemma dir_sorted (c : fixture) : StronglySorted String.le (dir c).
Proof. unfold dir. apply StronglySorted_merge_sort; apply _. Qed.

(** X9: with the default [cmp], and also with sorting switched off, the
    loop over the base classes adds nothing: [getTestCaseNames] is the list
    [dir] gives, filtered by the prefix, and therefore in string order in
    both cases. *)
Theorem getTestCaseNames_is_filtered_dir (self : TestLoader) (c : fixture) :
  sortTestMethodsUsing self = Some cmp ∨ sortTestMethodsUsing self = None →
  getTestCaseNames self c =
    filter (λ n, has_prefix (testMethodPrefix self) n = true) (dir c) ∧
  StronglySorted String.le (getTestCaseNames self c).
Proof.
  intros Hsort.
  set (names := filter (λ n, has_prefix (testMethodPrefix self) n = true) (dir c)).
  assert (StronglySorted String.le names) as Hsorted
    by apply StronglySorted_filter, dir_sorted.
  assert (getTestCaseNames self c = names) as ->; [|done].
  rewrite getTestCaseNames_unfold. fold names.
  assert (foldl append_missing names (getTestCaseNames self <$> c_bases c) = names)
    as ->.
  { assert (∀ b, b ∈ c_bases c → ∀ n, n ∈ getTestCaseNames self b → n ∈ names)
      as Hsub.
    { intros b Hb n [Hn Hp]%getTestCaseNames_spec. apply list_elem_of_filter.
      split; [done|]. apply elem_of_dir. by apply (dir_names_base c b). }
    induction (c_bases c) as [|b bs IH]; [done|]. cbn [fmap list_fmap foldl].
    rewrite append_missing_present by (apply Hsub, elem_of_cons; auto).
    apply IH. intros b' Hb'. apply Hsub, elem_of_cons. auto. }
  unfold maybe_sort. destruct Hsort as [->| ->]; [|done].
  apply (StronglySorted_unique String.le); [apply sort_with_cmp_sorted|done|].
  apply sort_with_Permutation.
Qed.

Lemma getTestCaseNames_is_filtered_dir_witness :
  sortTestMethodsUsing (mkTestLoader "test" None "TestSuite") = None ∧
  getTestCaseNames (mkTestLoader "test" None "TestSuite") demo_sub =
    ["test0"; "testA"; "testB"; "testC"].
Proof.
  split; [reflexivity|].
  rewrite (proj1 (getTestCaseNames_is_filtered_dir
                    (mkTestLoader "test" None "TestSuite") demo_sub
                    (or_intror eq_refl))).
  by vm_compute.
Defined.

Lemma instantiate_fields c n t :
  instantiate c n = Some t →
  _testMethodName t = n ∧ t_class t = c_str c ∧
  ∃ m, getattr c n = Some m ∧ _testMethod t = m_body m.
Proof.
  unfold instantiate. intros H.
  destruct (getattr c n) as [m|]; [|done]. cbn in H.
  destruct (_setupMetaData _ _ _ _ _) as [md|]; [|done]. cbn in H.
  injection H as <-. cbn. eauto.
Qed.

(** X10: [loadTestsFromTestCase] always succeeds; its suite is named after
    the class, counts one test case per name of [getTestCaseNames], and
    files each of them under its method name: [getTestForName] returns, for
    every such name, the instance made for it, whose check is the method
    that attribute lookup on the class finds (the overriding one). *)
Theorem loaded_suite_lookup (self : TestLoader) (c : fixture) :
  ∃ s, loadTestsFromTestCase self c = Some s ∧
    suiteName s = Some (c_name c) ∧
    s_class s = suiteClass self ∧
    countTestCases s = length (getTestCaseNames self c) ∧
    (∀ n, n ∈ getTestCaseNames self c →
       ∃ t m, getTestForName s n = Some (ACase t) ∧
              instantiate c n = Some t ∧ _testMethodName t = n ∧
              getattr c n = Some m ∧ _testMethod t = m_body m) ∧
    (∀ n, n ∉ getTestCaseNames self c → getTestForName s n = None).
Proof.
  destruct (loadTestsFromTestCase_spec self c) as (s & Hs & Hnames & Hname).
  exists s. split; [done|]. split; [done|].
  unfold loadTestsFromTestCase in Hs.
  destruct (mapM (instantiate c) (getTestCaseNames self c)) as [tests|] eqn:Hm;
    [|done]. cbn in Hs. injection Hs as <-.
  apply mapM_Some_1 in Hm.
  assert (key_of <$> (ACase <$> tests) = getTestCaseNames self c) as Hkeys.
  { rewrite <- Hnames, cases_of_tests. unfold TestSuite_init.
    rewrite addTests_tests. cbn [_tests app]. rewrite flat_cases_ACase.
    by rewrite <- list_fmap_compose. }
  destruct (getTestCaseNames_spec self c) as [Hnd _].
  split.
  { unfold TestSuite_init, addTests.
    generalize (ACase <$> tests). intros l.
    assert (s_class (mkTestSuite (suiteClass self) [] ∅ (Some (c_name c))) =
            suiteClass self) as H0 by done. revert H0.
    generalize (mkTestSuite (suiteClass self) [] ∅ (Some (c_name c))).
    induction l as [|x l IH]; intros s0 Hs0; [done|]. cbn. by apply IH. }
  split.
  { by rewrite countTestCases_length, <- Hnames, length_fmap. }
  split.
  - intros n Hn.
    apply list_elem_of_lookup in Hn as [i Hi].
    destruct (Forall2_lookup_l _ _ _ _ _ Hm Hi) as (t & Ht & Hinst).
    destruct (instantiate_fields _ _ _ Hinst) as (Hn & _ & m & Hget & Hbody).
    exists t, m.
    split; [|done]. rewrite getTestForName_init, <- Hn.
    apply (last_filter_own_key (ACase <$> tests) (ACase t)).
    + by rewrite Hkeys.
    + apply list_elem_of_fmap_2. by eapply list_elem_of_lookup_2.
  - intros n Hn.
    rewrite getTestForName_init. apply last_filter_None. intros x Hx Hk. apply Hn. rewrite <- Hkeys, <- Hk.
    by apply list_elem_of_fmap_2.
Qed.

(** ** The progress output of the text collector *)

Lemma string_app_nil_r (s : string) : s +:+ "" = s.
Proof.
  induction s as [|a s IH]; [done|].
  change (String a (s +:+ "") = String a s). by rewrite IH.
Qed.

Lemma string_app_assoc (s1 s2 s3 : string) :
  (s1 +:+ s2) +:+ s3 = s1 +:+ (s2 +:+ s3).
Proof.
  induction s1 as [|a s1 IH]; [done|].
  change (String a ((s1 +:+ s2) +:+ s3) = String a (s1 +:+ (s2 +:+ s3))).
  by rewrite IH.
Qed.

Lemma string_length_app (s1 s2 : string) :
  String.length (s1 +:+ s2) = String.length s1 + String.length s2.
Proof.
  induction s1 as [|a s1 IH]; [done|].
  change (S (String.length (s1 +:+ s2)) = S (String.length s1 + String.length s2)).
  by rewrite IH.
Qed.

Lemma progress_app sa d cs cs' :
  progress sa d (cs ++ cs') = progress sa d cs +:+ progress sa d cs'.
Proof.
  unfold progress. induction cs as [|c cs IH]; [done|]. cbn [app foldr].
  by rewrite IH, string_app_assoc.
Qed.

Lemma text_after_nil f : text_after [] f = f.
Proof.
  destruct f. unfold text_after, progress. cbn [foldr _streamOut _showAll _dots
    _verbosity _explain _streamErr]. by rewrite string_app_nil_r.
Qed.

Lemma text_after_app cs cs' f :
  text_after cs' (text_after cs f) = text_after (cs ++ cs') f.
Proof.
  unfold text_after. cbn [_streamOut _showAll _dots _verbosity _explain
    _streamErr]. by rewrite progress_app, string_app_assoc.
Qed.

Lemma tstep_refl w : tstep w w [].
Proof.
  unfold tstep. destruct (text (result w)); cbn; [|done].
  by rewrite text_after_nil.
Qed.

Lemma tstep_trans w w1 w2 cs cs' :
  tstep w w1 cs → tstep w1 w2 cs' → tstep w w2 (cs ++ cs').
Proof.
  unfold tstep. intros H1 H2. rewrite H2, H1.
  destruct (text (result w)); cbn; [|done]. by rewrite text_after_app.
Qed.

Section truns.
Context (txt : bool) (p : string).

Lemma truns_ret {A} (v : A) : truns txt p (mret v) [].
Proof. intros w _ _. apply tstep_refl. Qed.

Lemma truns_bind {A B} (m : M A) (f : A → M B) v cs cs' fs es n :
  runs txt p m v cs fs es n → truns txt p m cs → truns txt p (f v) cs' →
  truns txt p (m ≫= f) (cs ++ cs').
Proof.
  intros Hr Hm Hf w Ht Hp. destruct (Hr w Ht Hp) as [Hv Hs].
  specialize (Hm w Ht Hp). unfold mbind, M_bind.
  destruct (m w) as [x w1]. cbn in Hv, Hs, Hm. subst x.
  destruct Hs as (_ & Hpl & _ & _ & _ & _ & Htx).
  eapply tstep_trans; [exact Hm|]. apply Hf; congruence.
Qed.

Lemma truns_eq {A} (m : M A) cs cs' :
  truns txt p m cs → cs = cs' → truns txt p m cs'.
Proof. by intros ? ->. Qed.
End truns.

Ltac op_truns :=
  intros [p' [fs es n st [[v [] [] ex so se]|]] l] Ht Hp;
  cbn in Ht, Hp; subst; try discriminate; unfold_ops;
  unfold tstep, text_after, progress, StreamWrapper.writeln,
    StreamWrapper.write, with_text; cbn;
  repeat (case_decide; cbn);
  rewrite ?string_app_nil_r, ?string_app_assoc; try done.

Section text_ops.
Context (txt : bool) (p : string).

Lemma truns_invoke c o :
  (∀ sa d, progress_of sa d c = "") → truns txt p (invoke c o) [c].
Proof.
  intros Hc. destruct txt; op_truns; rewrite ?Hc, ?string_app_nil_r; try done.
Qed.

Lemma truns_exc_info_here e : truns txt p (exc_info_here e) [].
Proof. destruct txt; op_truns. Qed.

Lemma truns_startTest t : truns txt p (startTest t) [CStartTest t].
Proof. destruct txt; op_truns. Qed.

Lemma truns_stopTest t : truns txt p (stopTest t) [CStopTest t].
Proof. destruct txt; op_truns. Qed.

Lemma truns_addSuccess t : truns txt p (addSuccess t) [CAddSuccess t].
Proof. destruct txt; op_truns. Qed.

Lemma truns_addFailure t ei : truns txt p (addFailure t ei) [CAddFailure t ei].
Proof. destruct txt; op_truns. Qed.

Lemma truns_addError t ei : truns txt p (addError t ei) (addError_calls txt t ei).
Proof. destruct txt; op_truns. Qed.

Lemma truns_record_error t e :
  truns txt p (ei ← exc_info_here e; addError t ei ;; mret false)
    (addError_calls txt t (__exc_info p e)).
Proof.
  eapply truns_eq.
  - eapply truns_bind; [apply runs_exc_info_here|apply truns_exc_info_here|].
    eapply truns_bind; [apply runs_addError|apply truns_addError|apply truns_ret].
  - by rewrite app_nil_r.
Qed.

Lemma truns_record_failure t e :
  truns txt p (ei ← exc_info_here e; addFailure t ei ;; mret false)
    [CAddFailure t (__exc_info p e)].
Proof.
  eapply truns_eq.
  - eapply truns_bind; [apply runs_exc_info_here|apply truns_exc_info_here|].
    eapply truns_bind;
      [apply runs_addFailure|apply truns_addFailure|apply truns_ret].
  - done.
Qed.

Ltac hook_step :=
  eapply truns_bind;
    [apply runs_invoke; discriminate|by apply truns_invoke|]; cbn beta iota.

Ltac record_tstep :=
  lazymatch goal with
  | |- truns _ _ (mret _) _ => apply truns_ret
  | |- truns _ _ (addSuccess _) _ => apply truns_addSuccess
  | |- truns _ _ (mret _ ≫= _) _ =>
      eapply truns_bind; [apply runs_ret|apply truns_ret|]; cbn beta iota
  | |- truns _ _ ((_ ≫= λ ei, addFailure _ ei ≫= _) ≫= _) _ =>
      eapply truns_bind;
        [apply runs_record_failure|apply truns_record_failure|]; cbn beta iota
  | |- truns _ _ ((_ ≫= λ ei, addError _ ei ≫= _) ≫= _) _ =>
      eapply truns_bind;
        [apply runs_record_error|apply truns_record_error|]; cbn beta iota
  end.

Lemma truns___call__body t :
  truns txt p (__call__body t)
    (CSetUp t ::
     match setUp t with
     | Some e => addError_calls txt t (__exc_info p e)
     | None =>
         [CTestMethod t] ++ check_calls txt p t ++
         [CTearDown t] ++ tearDown_calls txt p t ++ success_calls t
     end).
Proof.
  unfold __call__body, check_calls, tearDown_calls, success_calls.
  destruct (setUp t) as [su|].
  { eapply truns_eq.
    - hook_step.
      eapply truns_bind;
        [apply runs_exc_info_here|apply truns_exc_info_here|apply truns_addError].
    - done. }
  destruct (_testMethod t) as [tm|], (tearDown t) as [td|];
    try destruct (issubclass (exctype tm) (failureException t)) eqn:Hsub.
  all: eapply truns_eq;
    [ hook_step; hook_step; rewrite ?Hsub; cbn beta iota;
      record_tstep; hook_step; record_tstep; record_tstep
    | cbn [app]; rewrite <- ?app_assoc, ?app_nil_r; reflexivity ].
Qed.

Lemma truns___call__ t : truns txt p (__call__ t) (run_calls txt p t).
Proof.
  unfold __call__, run_calls. eapply truns_eq.
  - eapply truns_bind; [apply runs_startTest|apply truns_startTest|].
    eapply truns_bind;
      [apply runs___call__body|apply truns___call__body|apply truns_stopTest].
  - cbn. by rewrite <- ?app_assoc.
Qed.
End text_ops.

Lemma __call___writes (t : TestCase) (w : world) :
  tstep w (exec (__call__ t) w)
    (run_calls (is_text (result w)) (sys_platform w) t).
Proof. by apply truns___call__. Qed.

Lemma run_tests_writes (tests : list Test) :
  Forall (holds_of_suite suite_writes) tests →
  ∀ w, tstep w (exec (run_tests tests) w)
         (suite_calls (is_text (result w)) (sys_platform w)
            (shouldStop (result w)) (flat_cases tests)).
Proof.
  induction 1 as [|test tests Htest _ IH]; intros w.
  { apply tstep_refl. }
  destruct (shouldStop (result w)) eqn:Hstop.
  { unfold exec. rewrite run_tests_stopped, suite_calls_stopped by done.
    apply tstep_refl. }
  set (txt := is_text (result w)). set (p := sys_platform w).
  set (w1 := exec (Test__call__ test) w).
  assert (tstep w w1 (suite_calls txt p false (Test_cases test)) ∧
          ∃ fs es n, step w w1 (suite_calls txt p false (Test_cases test)) fs es n)
    as [Hw (fs & es & n & Hstep)].
  { destruct test as [c|s]; cbn [Test__call__ Test_cases suite_calls] in *.
    - rewrite app_nil_r. split; [apply __call___writes|].
      eexists _, _, _. apply __call___spec.
    - split.
      + specialize (Htest w). cbn in Htest. by rewrite Hstop in Htest.
      + destruct (suite_runs_all s w) as (fs & es & n & Hs).
        rewrite Hstop in Hs. eauto. }
  replace (exec (run_tests (test :: tests)) w) with (exec (run_tests tests) w1).
  2:{ unfold w1, exec. cbn. unfold mbind, M_bind, get_result. rewrite Hstop.
      by destruct (Test__call__ test w). }
  unfold flat_cases. cbn [flat_map]. rewrite suite_calls_app.
  eapply tstep_trans; [exact Hw|].
  specialize (IH w1).
  destruct Hstep as (_ & Hpl & _ & _ & _ & Hst & Htx).
  rewrite Hpl, Htx, Hst, Hstop in IH. exact IH.
Qed.

Lemma suite_writes_all (s : TestSuite) : suite_writes s.
Proof.
  induction s as [cls tests m n IH] using TestSuite_nested_ind.
  intros w. rewrite TestSuite__call___loop, cases_of_flat.
  by apply run_tests_writes.
Qed.

Lemma progress_terse_length (cs : list call) :
  String.length (progress false true cs) =
  length (filter (λ c, is_outcome c = true) cs).
Proof.
  unfold progress. induction cs as [|c cs IH]; [done|]. cbn [foldr].
  rewrite string_length_app, IH, filter_cons.
  destruct c; cbn; by case_decide.
Qed.

Lemma progress_quiet (cs : list call) : progress false false cs = "".
Proof.
  unfold progress. induction cs as [|c cs IH]; [done|]. cbn [foldr].
  rewrite IH. by destruct c.
Qed.

(** X11: during the run of a test case or of a suite a text collector
    writes only to its output stream: the error stream and the settings are
    unchanged, and the output grows by the progress text of the calls made,
    call by call.  With verbosity 1 that is one character for each recorded
    outcome (so two for a unit whose check and [tearDown] both raise); with
    verbosity 0 it is nothing. *)
Theorem progress_written (s : TestSuite) (t : TestCase) (w : world)
    (f : TextFields) :
  text (result w) = Some f →
  let after m := text (result (exec m w)) in
  after (__call__ t) = Some (text_after (calls_during (__call__ t) w) f) ∧
  after (TestSuite__call__ s) =
    Some (text_after (calls_during (TestSuite__call__ s) w) f) ∧
  (∀ cs, _streamErr (text_after cs f) = _streamErr f ∧
         _showAll (text_after cs f) = _showAll f ∧
         _dots (text_after cs f) = _dots f ∧
         (_showAll f = false → _dots f = true →
          String.length (_streamOut (text_after cs f)) =
            String.length (_streamOut f) +
            length (filter (λ c, is_outcome c = true) cs)) ∧
         (_showAll f = false → _dots f = false →
          _streamOut (text_after cs f) = _streamOut f)).
Proof.
  intros Hf. cbn zeta. split; [|split].
  - rewrite calls_during___call__.
    pose proof (__call___writes t w) as H. unfold tstep in H.
    by rewrite H, Hf.
  - rewrite calls_during_suite.
    pose proof (suite_writes_all s w) as H. unfold tstep in H.
    by rewrite H, Hf.
  - intros cs. unfold text_after. cbn.
    split; [done|]. split; [done|]. split; [done|]. split.
    + intros -> ->. by rewrite string_length_app, progress_terse_length.
    + intros -> ->. by rewrite progress_quiet, string_app_nil_r.
Qed.

Lemma progress_written_witness :
  text (result text_world) = Some (mkText 1 false true false "" "") ∧
  _streamOut <$> text (result (exec (__call__ failing_then_broken) text_world)) =
    Some "FE".
Proof.
  split; [reflexivity|].
  rewrite (proj1 (progress_written suite_A failing_then_broken text_world
                    (mkText 1 false true false "" "") eq_refl)).
  by vm_compute.
Defined.

(** ** The summary *)

Lemma extends_refl f : extends f f.
Proof.
  exists "", "". unfold appended. destruct f; cbn. by rewrite !string_app_nil_r.
Qed.

Lemma extends_trans f f1 f2 : extends f f1 → extends f1 f2 → extends f f2.
Proof.
  intros (o & e & ->) (o' & e' & ->). exists (o +:+ o'), (e +:+ e').
  unfold appended. cbn. by rewrite !string_app_assoc.
Qed.

Lemma extends_write txt f : extends f (StreamWrapper.write txt f).
Proof.
  exists txt, "". unfold appended, StreamWrapper.write.
  by rewrite string_app_nil_r.
Qed.

Lemma extends_writeErr txt f : extends f (StreamWrapper.writeErr txt f).
Proof.
  exists "", txt. unfold appended, StreamWrapper.writeErr.
  by rewrite string_app_nil_r.
Qed.

Lemma extends_foldl {A} (g : TextFields → A → TextFields) (l : list A) f :
  (∀ f x, extends f (g f x)) → extends f (foldl g f l).
Proof.
  intros Hg. revert f. induction l as [|x l IH]; intros f; [apply extends_refl|].
  cbn. eapply extends_trans; [apply Hg|apply IH].
Qed.

Lemma extends_writeln lines f : extends f (StreamWrapper.writeln lines f).
Proof.
  unfold StreamWrapper.writeln. cbn zeta.
  assert (extends f (foldl (λ f line, StreamWrapper.write (line +:+ nl) f) f lines))
    as H by (apply extends_foldl; intros; apply extends_write).
  case_decide; [|done]. eapply extends_trans; [exact H|apply extends_write].
Qed.

Lemma extends_writelnErr lines f : extends f (StreamWrapper.writelnErr lines f).
Proof.
  unfold StreamWrapper.writelnErr. cbn zeta.
  assert (extends f (foldl (λ f line, StreamWrapper.writeErr (line +:+ nl) f) f lines))
    as H by (apply extends_foldl; intros; apply extends_writeErr).
  case_decide; [|done]. eapply extends_trans; [exact H|apply extends_writeErr].
Qed.

Lemma extends_explain f f' : extends f f' → _explain f' = _explain f.
Proof. by intros (o & e & ->). Qed.

Section summary_proofs.
Context (format_exception : exc_info → list string).

Lemma extends_printError flavour f entry :
  extends f (printError format_exception flavour f entry).
Proof.
  destruct entry as [test err]. unfold printError.
  eapply extends_trans; [|apply extends_writelnErr].
  eapply extends_trans; [|apply extends_foldl].
  2:{ intros f0 line. apply extends_foldl. intros. apply extends_writelnErr. }
  eapply extends_trans; [|apply extends_writeln].
  eapply extends_trans; [apply extends_writeln|].
  eapply extends_trans; [apply extends_writelnErr|].
  case_match; [|apply extends_refl]. case_decide; [apply extends_refl|].
  eapply extends_trans; [apply extends_writeln|].
  eapply extends_trans; [apply extends_writeErr|apply extends_writelnErr].
Qed.

Lemma extends_printErrorList flavour errors f :
  extends f (printErrorList format_exception flavour errors f).
Proof. apply extends_foldl. intros. apply extends_printError. Qed.

Lemma extends_printErrors r f : extends f (printErrors format_exception r f).
Proof.
  unfold printErrors.
  eapply extends_trans; [|apply extends_printErrorList].
  eapply extends_trans; [|apply extends_printErrorList].
  case_match; [apply extends_writeln|apply extends_refl].
Qed.

(** With nothing to print, [printErrors] leaves the error stream alone. *)
Lemma printErrors_nothing r f :
  failures r = [] → errors r = [] →
  _streamErr (printErrors format_exception r f) = _streamErr f.
Proof.
  intros Hf He. unfold printErrors, printErrorList. rewrite Hf, He. cbn.
  case_match; [|done]. by destruct f.
Qed.
End summary_proofs.

Lemma streams_write txt f :
  _streamOut (StreamWrapper.write txt f) = _streamOut f +:+ txt ∧
  _streamErr (StreamWrapper.write txt f) = _streamErr f.
Proof. done. Qed.

Lemma streams_writeErr txt f :
  _streamOut (StreamWrapper.writeErr txt f) = _streamOut f ∧
  _streamErr (StreamWrapper.writeErr txt f) = _streamErr f +:+ txt.
Proof. done. Qed.

Lemma streams_writeln_1 line f :
  _streamOut (StreamWrapper.writeln [line] f) = _streamOut f +:+ line +:+ nl ∧
  _streamErr (StreamWrapper.writeln [line] f) = _streamErr f.
Proof. done. Qed.

Lemma streams_writeln_0 f :
  _streamOut (StreamWrapper.writeln [] f) = _streamOut f +:+ nl ∧
  _streamErr (StreamWrapper.writeln [] f) = _streamErr f.
Proof. done. Qed.

Lemma streams_writelnErr_1 line f :
  _streamOut (StreamWrapper.writelnErr [line] f) = _streamOut f ∧
  _streamErr (StreamWrapper.writelnErr [line] f) = _streamErr f +:+ line +:+ nl.
Proof. done. Qed.

Ltac streams :=
  repeat first
    [ rewrite (proj1 (streams_writelnErr_1 _ _))
    | rewrite (proj2 (streams_writelnErr_1 _ _))
    | rewrite (proj1 (streams_writeln_1 _ _))
    | rewrite (proj2 (streams_writeln_1 _ _))
    | rewrite (proj1 (streams_writeln_0 _))
    | rewrite (proj2 (streams_writeln_0 _))
    | rewrite (proj1 (streams_writeErr _ _))
    | rewrite (proj2 (streams_writeErr _ _))
    | rewrite (proj1 (streams_write _ _))
    | rewrite (proj2 (streams_write _ _)) ].

Section summary_claims.
Context (format_exception : exc_info → list string).

Lemma py_or_and_empty (a : bool) : py_or (py_and a "") "s" = "s".
Proof. by destruct a. Qed.

Lemma summarize_text_out timeTaken r f :
  _streamOut (summarize_text format_exception timeTaken r f) =
    _streamOut (printErrors format_exception r f) +:+
    string_times "-" 70 +:+ nl +:+
    "Ran " +:+ pretty (testsRun r) +:+ " tests in " +:+ timeTaken +:+ "s" +:+
    nl +:+ nl.
Proof.
  unfold summarize_text. cbn zeta. rewrite py_or_and_empty.
  destruct (negb (TestResult.wasSuccessful r)); repeat case_decide;
    unfold writeSep2; streams; rewrite ?string_app_assoc; reflexivity.
Qed.

Lemma summarize_text_err timeTaken r f :
  _streamErr (summarize_text format_exception timeTaken r f) =
    _streamErr (printErrors format_exception r f) +:+
    (if TestResult.wasSuccessful r then "OK" +:+ nl
     else "FAILED (" +:+ tally r +:+ ")" +:+ nl).
Proof.
  unfold summarize_text, tally. cbn zeta.
  destruct (TestResult.wasSuccessful r); cbn [negb]; repeat case_decide;
    unfold writeSep2; streams;
    rewrite ?string_app_assoc, ?string_app_nil_r; reflexivity.
Qed.

Lemma extends_summarize_text timeTaken r f :
  extends f (summarize_text format_exception timeTaken r f).
Proof.
  unfold summarize_text. cbn zeta. rewrite py_or_and_empty.
  match goal with
  | |- context [StreamWrapper.writeln [] ?g] =>
      assert (extends f (StreamWrapper.writeln [] g)) as Hran;
      [|generalize dependent (StreamWrapper.writeln [] g); intros f1 Hran]
  end.
  { eapply extends_trans; [|apply extends_writeln].
    eapply extends_trans; [|apply extends_writeln].
    eapply extends_trans; [apply extends_printErrors|apply extends_writeln]. }
  destruct (negb (TestResult.wasSuccessful r)); repeat case_decide;
    repeat first
      [ exact Hran
      | eapply extends_trans; [|apply extends_writelnErr]
      | eapply extends_trans; [|apply extends_writeErr] ].
Qed.

(** X12: [summarize] changes nothing of the collector but the text of its
    two streams, and to each of them it only appends: the lists, the count,
    the stop flag and the four settings are kept.  The last thing it writes
    to the error stream is the verdict: [OK] and a line end, and nothing
    else, when the collector is successful; otherwise [FAILED (], the count
    of failures if there are any, the count of errors if there are any,
    with a comma and a space between the two, and [)]. *)
Theorem summarize_verdict (timeTaken : string) (r : TestResult) (f : TextFields) :
  text r = Some f →
  let r' := summarize format_exception timeTaken r in
  failures r' = failures r ∧ errors r' = errors r ∧
  testsRun r' = testsRun r ∧ shouldStop r' = shouldStop r ∧
  ∃ f', text r' = Some f' ∧
    _verbosity f' = _verbosity f ∧ _showAll f' = _showAll f ∧
    _dots f' = _dots f ∧ _explain f' = _explain f ∧
    (∃ out, _streamOut f' = _streamOut f +:+ out) ∧
    (∃ err, _streamErr f' = _streamErr f +:+ err) ∧
    (TestResult.wasSuccessful r = true →
       _streamErr f' = _streamErr f +:+ "OK" +:+ nl) ∧
    (TestResult.wasSuccessful r = false →
       ∃ details tally,
         _streamErr f' =
           _streamErr f +:+ details +:+ "FAILED (" +:+ tally +:+ ")" +:+ nl ∧
         (errors r = [] → tally = "failures=" +:+ pretty (length (failures r))) ∧
         (failures r = [] → tally = "errors=" +:+ pretty (length (errors r))) ∧
         (failures r ≠ [] → errors r ≠ [] →
            tally = "failures=" +:+ pretty (length (failures r)) +:+ ", " +:+
                    "errors=" +:+ pretty (length (errors r)))).
Proof.
  intros Hf. cbn zeta. unfold summarize, with_text. cbn. rewrite Hf. cbn.
  repeat (split; [done|]). eexists. split; [done|].
  destruct (extends_summarize_text timeTaken r f) as (o' & e' & Hs').
  split; [by rewrite Hs'|]. split; [by rewrite Hs'|].
  split; [by rewrite Hs'|]. split; [by rewrite Hs'|].
  split; [exists o'; by rewrite Hs'|]. split; [exists e'; by rewrite Hs'|].
  clear o' e' Hs'.
  destruct (extends_printErrors format_exception r f) as (o & e & Hp).
  split.
  - intros Hok. rewrite summarize_text_err, Hok.
    apply wasSuccessful_iff in Hok as [Hfs Hes].
    by rewrite printErrors_nothing.
  - intros Hok. rewrite summarize_text_err, Hok.
    assert (_streamErr (printErrors format_exception r f) = _streamErr f +:+ e)
      as -> by (by rewrite Hp).
    exists e, (tally r). split; [by rewrite !string_app_assoc|].
    assert (failures r ≠ [] ∨ errors r ≠ []) as Hne.
    { destruct (failures r) eqn:?, (errors r) eqn:?; auto.
      exfalso. assert (TestResult.wasSuccessful r = true) as Hyes
        by (by apply wasSuccessful_iff). congruence. }
    unfold tally. cbn zeta.
    split; [|split].
    + intros He. rewrite He in *.
      rewrite (decide_True (P := length [] = 0)) by reflexivity.
      rewrite decide_False, string_app_nil_r; [reflexivity|].
      intros Hz%length_zero_iff_nil. by destruct Hne.
    + intros Hfs. rewrite Hfs in *.
      rewrite !(decide_True (P := length [] = 0)) by reflexivity.
      rewrite decide_False; [reflexivity|].
      intros Hz%length_zero_iff_nil. by destruct Hne.
    + intros Hfs Hes.
      rewrite !decide_False by (by intros Hz%length_zero_iff_nil).
      by rewrite !string_app_assoc.
Qed.

Lemma string_times_add (s : string) (a b : nat) :
  string_times s (a + b) = string_times s a +:+ string_times s b.
Proof.
  induction a as [|a IH]; [done|].
  change (s +:+ string_times s (a + b) = (s +:+ string_times s a) +:+ string_times s b).
  by rewrite IH, string_app_assoc.
Qed.

Lemma foldl_out {A} (g : TextFields → A → TextFields) (l : list A) f :
  (∀ f x, _streamOut (g f x) = _streamOut f ∧ _explain (g f x) = _explain f) →
  _streamOut (foldl g f l) = _streamOut f ∧ _explain (foldl g f l) = _explain f.
Proof.
  intros Hg. revert f. induction l as [|x l IH]; intros f; [done|].
  cbn. destruct (IH (g f x)) as [-> ->]. apply Hg.
Qed.

Lemma printError_out flavour f entry :
  _explain f = false →
  _streamOut (printError format_exception flavour f entry) =
    _streamOut f +:+ entry_separators ∧
  _explain (printError format_exception flavour f entry) = false.
Proof.
  intros Hex. destruct entry as [test err]. unfold printError. cbn zeta.
  assert (_explain (StreamWrapper.writelnErr
            [flavour +:+ " " +:+ id_ test +:+ " (" +:+ describe test +:+ ")"]
            (writeErrSep1 f)) = false) as ->.
  { rewrite <- Hex. apply extends_explain.
    eapply extends_trans; [apply extends_writeln|apply extends_writelnErr]. }
  match goal with
  | |- context [foldl ?g ?f0 ?l] =>
      assert (_streamOut (foldl g f0 l) = _streamOut f0 ∧
              _explain (foldl g f0 l) = _explain f0) as [Ho He]
  end.
  { apply foldl_out. intros f0 line. apply foldl_out. intros f1 l. done. }
  split.
  - rewrite (proj1 (streams_writelnErr_1 _ _)), Ho.
    unfold writeErrSep2, writeErrSep1. streams.
    unfold entry_separators. by rewrite !string_app_assoc.
  - transitivity (_explain f); [|done]. apply extends_explain.
    eapply extends_trans; [|apply extends_writelnErr].
    eapply extends_trans; [|apply extends_foldl].
    2:{ intros f0 line. apply extends_foldl. intros. apply extends_writelnErr. }
    eapply extends_trans; [|apply extends_writeln].
    eapply extends_trans; [apply extends_writeln|apply extends_writelnErr].
Qed.

Lemma printErrorList_out flavour errors f :
  _explain f = false →
  _streamOut (printErrorList format_exception flavour errors f) =
    _streamOut f +:+ string_times entry_separators (length errors) ∧
  _explain (printErrorList format_exception flavour errors f) = false.
Proof.
  unfold printErrorList. revert f.
  induction errors as [|x l IH]; intros f Hex.
  - cbn. by rewrite string_app_nil_r.
  - destruct (printError_out flavour f x Hex) as [Ho He].
    destruct (IH _ He) as [Ho' He'].
    change (foldl (printError format_exception flavour) f (x :: l))
      with (foldl (printError format_exception flavour)
              (printError format_exception flavour f x) l).
    split; [|done]. rewrite Ho', Ho.
    change (string_times entry_separators (length (x :: l)))
      with (entry_separators +:+ string_times entry_separators (length l)).
    by rewrite string_app_assoc.
Qed.

Lemma printErrors_out r f :
  _explain f = false →
  _streamOut (printErrors format_exception r f) =
    _streamOut f +:+ (if _dots f || _showAll f then nl else "") +:+
    string_times entry_separators (length (errors r) + length (failures r)).
Proof.
  intros Hex. unfold printErrors. cbn zeta.
  set (f0 := if _dots f || _showAll f then StreamWrapper.writeln [] f else f).
  assert (_explain f0 = false ∧
          _streamOut f0 = _streamOut f +:+ (if _dots f || _showAll f then nl else ""))
    as [Hex0 Ho0].
  { unfold f0. destruct (_dots f || _showAll f).
    - split; [|apply streams_writeln_0].
      rewrite <- Hex. apply extends_explain, extends_writeln.
    - by rewrite string_app_nil_r. }
  destruct (printErrorList_out "ERROR" (errors r) f0 Hex0) as [Ho1 Hex1].
  destruct (printErrorList_out "FAIL" (failures r) _ Hex1) as [Ho2 _].
  rewrite Ho2, Ho1, Ho0, string_times_add. by rewrite !string_app_assoc.
Qed.

(** ** The runner *)

Lemma Test__call___step (test : Test) (w : world) :
  shouldStop (result w) = false →
  let txt := is_text (result w) in
  let p := sys_platform w in
  let ex := executed txt p false (Test_cases test) in
  step w (exec (Test__call__ test) w)
    (suite_calls txt p false (Test_cases test))
    (mjoin (new_failures p <$> ex)) (mjoin (new_errors p <$> ex)) (length ex) ∧
  tstep w (exec (Test__call__ test) w)
    (suite_calls txt p false (Test_cases test)).
Proof.
  intros Hstop. cbn zeta.
  destruct test as [c|s]; cbn [Test__call__ Test_cases suite_calls executed].
  - cbn. rewrite !app_nil_r. split; [apply __call___spec|apply __call___writes].
  - pose proof (suite_runs_fully_all s w) as Hs.
    pose proof (suite_writes_all s w) as Ht.
    cbn zeta in Hs. rewrite Hstop in Hs, Ht. done.
Qed.

(** X14: [TextTestRunner.run] makes a fresh collector, so nothing of an
    earlier run counts: the collector it returns has counted the executed
    cases and holds their failures and errors, and it is the collector left
    behind.  The error stream gets [OK] and a line end, and nothing else,
    exactly if every executed case passed.  With explanations off the
    output stream gets the progress text, a line end if there was progress
    text to end, two separator lines per failure and error, the dashes, the
    count line and an empty line. *)
Theorem runner_report (timeTaken : string) (self : TextTestRunner.t)
    (test : Test) (w : world) :
  let done := TextTestRunner.run format_exception timeTaken self test w in
  let r := done.1 in
  let p := sys_platform w in
  let ex := executed true p false (Test_cases test) in
  let showAll := bool_decide (1 < TextTestRunner._verbosity self)%Z in
  let dots := bool_decide (TextTestRunner._verbosity self = 1%Z) in
  result done.2 = r ∧
  ex `prefix_of` Test_cases test ∧
  testsRun r = length ex ∧
  failures r = mjoin (new_failures p <$> ex) ∧
  errors r = mjoin (new_errors p <$> ex) ∧
  TestResult.wasSuccessful r = forallb passes ex ∧
  ∃ f, text r = Some f ∧
    (_streamErr f = TextTestRunner._err self +:+ "OK" +:+ nl ↔
     forallb passes ex = true) ∧
    (TextTestRunner._explain self = false →
     _streamOut f =
       TextTestRunner._out self +:+
       progress showAll dots (suite_calls true p false (Test_cases test)) +:+
       (if dots || showAll then nl else "") +:+
       string_times entry_separators (length (errors r) + length (failures r)) +:+
       string_times "-" 70 +:+ nl +:+
       "Ran " +:+ pretty (length ex) +:+ " tests in " +:+ timeTaken +:+ "s" +:+
       nl +:+ nl).
Proof.
  cbn zeta.
  set (r0 := TextTestRunner._makeResult self).
  set (w0 := mkWorld (sys_platform w) r0 (calls w)).
  set (w1 := exec (Test__call__ test) w0).
  set (r1 := result w1).
  assert (TextTestRunner.run format_exception timeTaken self test w =
          (summarize format_exception timeTaken r1,
           mkWorld (sys_platform w1)
             (summarize format_exception timeTaken r1) (calls w1))) as ->.
  { unfold TextTestRunner.run, r1, w1, w0, r0, exec, mbind, M_bind,
      put_result, get_result.
    by destruct (Test__call__ test _) as [[] w1']. }
  cbn [fst snd result].
  destruct (Test__call___step test w0 eq_refl) as [Hstep Ht].
  change (is_text (result w0)) with true in *.
  change (sys_platform w0) with (sys_platform w) in *.
  set (p := sys_platform w) in *.
  set (ex := executed true p false (Test_cases test)) in *.
  set (cs := suite_calls true p false (Test_cases test)) in *.
  fold w1 in Hstep, Ht.
  destruct Hstep as (_ & _ & Hf & He & Hn & _ & _).
  fold r1 in Hf, He, Hn. cbn in Hf, He, Hn.
  unfold tstep in Ht. fold r1 in Ht. cbn in Ht.
  assert (TestResult.wasSuccessful r1 = forallb passes ex) as Hok.
  { rewrite (wasSuccessful_app r0 r1 _ _ Hf He), <- andb_assoc.
    by rewrite passes_joined. }
  split; [done|]. split; [apply executed_prefix|].
  split; [done|]. split; [done|]. split; [done|]. split; [done|].
  unfold summarize, with_text. cbn [text]. rewrite Ht. cbn [fmap option_fmap option_map].
  eexists. split; [reflexivity|]. split.
  - rewrite summarize_text_err, Hok. destruct (forallb passes ex) eqn:Hall.
    + apply wasSuccessful_iff in Hok as [Hfs Hes].
      by rewrite printErrors_nothing.
    + split; [|done]. intros Heq. exfalso.
      destruct (extends_printErrors format_exception r1
                  (text_after cs (mkText (TextTestRunner._verbosity self)
                     (bool_decide (1 < TextTestRunner._verbosity self)%Z)
                     (bool_decide (TextTestRunner._verbosity self = 1%Z))
                     (TextTestRunner._explain self)
                     (TextTestRunner._out self) (TextTestRunner._err self))))
        as (o & e & Hp).
      rewrite Hp in Heq. cbn [_streamErr text_after] in Heq.
      rewrite !string_app_assoc in Heq.
      apply (inj (String.append (TextTestRunner._err self))) in Heq.
      apply (f_equal String.length) in Heq.
      rewrite !string_length_app in Heq. cbn in Heq. lia.
  - intros Hex. rewrite summarize_text_out, printErrors_out by done.
    cbn [_streamOut _dots _showAll text_after]. rewrite Hn.
    by rewrite !string_app_assoc.
Qed.
End summary_claims.

Lemma summarize_verdict_witness :
  text (_TextTestResult.init 1 false) = Some (mkText 1 false true false "" "") ∧
  _streamErr <$> text (summarize (λ _, []) "0.001"
                         (_TextTestResult.init 1 false)) = Some ("OK" +:+ nl).
Proof.
  split; [reflexivity|].
  destruct (summarize_verdict (λ _, []) "0.001" (_TextTestResult.init 1 false)
              (mkText 1 false true false "" "") eq_refl)
    as (_ & _ & _ & _ & f' & Hf' & _ & _ & _ & _ & _ & _ & Hok & _).
  rewrite Hf'. cbn. f_equal. apply Hok. reflexivity.
Defined.


(** ** The metadata of a test case *)

Lemma has_char_app a s1 s2 :
  has_char a (s1 +:+ s2) = has_char a s1 || has_char a s2.
Proof.
  induction s1 as [|c s1 IH]; [done|].
  change (bool_decide (c = a) || has_char a (s1 +:+ s2) =
          bool_decide (c = a) || has_char a s1 || has_char a s2).
  by rewrite IH, orb_assoc.
Qed.

Lemma has_char_rev_app a s1 s2 :
  has_char a (String.rev_app s1 s2) = has_char a s1 || has_char a s2.
Proof.
  revert s2. induction s1 as [|c s1 IH]; intros s2; [done|].
  cbn [String.rev_app has_char]. rewrite IH. cbn [has_char].
  destruct (bool_decide (c = a)), (has_char a s1); by rewrite ?orb_true_r.
Qed.

Lemma has_char_rev a s : has_char a (String.rev s) = has_char a s.
Proof. unfold String.rev. by rewrite has_char_rev_app, orb_false_r. Qed.

Lemma has_char_lstrip a s : has_char a s = false → has_char a (lstrip s) = false.
Proof.
  induction s as [|c s IH]; [done|]. intros H. cbn [lstrip].
  destruct (Ascii.is_space c); [|done].
  cbn [has_char] in H. apply orb_false_iff in H as [_ H]. by apply IH.
Qed.

Lemma one_line_strip s : one_line s → one_line (strip s).
Proof.
  intros [H1 H2]. unfold strip.
  split; rewrite has_char_rev; apply has_char_lstrip; rewrite has_char_rev;
    by apply has_char_lstrip.
Qed.

Lemma one_line_app s1 s2 : one_line s1 → one_line s2 → one_line (s1 +:+ s2).
Proof.
  intros [H1 H2] [H3 H4]. split; rewrite has_char_app; by apply orb_false_iff.
Qed.

Lemma one_line_rev s : one_line s → one_line (String.rev s).
Proof. intros [H1 H2]. split; by rewrite has_char_rev. Qed.

Lemma splitlines_go_one_line (cur : string) (b : bool) (s : string) :
  one_line cur → Forall one_line (splitlines_go cur b s).
Proof.
  revert cur b. induction s as [|c s IH]; intros cur b Hcur; cbn [splitlines_go].
  - case_decide; [constructor|]. constructor; [by apply one_line_rev|constructor].
  - assert (one_line "") as Hnil by done.
    case_decide as Hlf; [|case_decide as Hcr].
    + destruct b; [by apply IH|].
      constructor; [by apply one_line_rev|by apply IH].
    + constructor; [by apply one_line_rev|by apply IH].
    + apply IH. destruct Hcur as [H1 H2]. split; cbn [has_char].
      * by rewrite bool_decide_eq_false_2.
      * by rewrite bool_decide_eq_false_2.
Qed.

Lemma part_of_one_line (doc : option string) (d : string) :
  part_of doc = Some d → one_line d.
Proof.
  unfold part_of, first_line, splitlines. intros H.
  pose proof (splitlines_go_one_line "" false (doc_or_nl doc)) as Hall.
  destruct (splitlines_go "" false (doc_or_nl doc)) as [|l ls]; [done|].
  cbn in H. injection H as <-. apply one_line_strip.
  by eapply Forall_cons_1, Hall.
Qed.

Lemma _setupMetaData_one_line testDoc fixtureDoc name class methodName md :
  _setupMetaData testDoc fixtureDoc name class methodName = Some md →
  one_line (md_description md).
Proof.
  intros Hmd.
  destruct (part_of_is_Some testDoc) as [td Htd].
  destruct (part_of_is_Some fixtureDoc) as [fd Hfd].
  pose proof (part_of_one_line _ _ Htd) as H1.
  pose proof (part_of_one_line _ _ Hfd) as H2.
  unfold _setupMetaData in Hmd. unfold part_of in Htd, Hfd.
  rewrite Htd, Hfd in Hmd. cbn in Hmd. injection Hmd as <-.
  cbn [md_description]. case_decide; [done|].
  apply one_line_app; [done|]. by apply one_line_app.
Qed.

(** X15: whatever the two docstrings are (several lines, blank lines, CR LF
    line ends), construction computes the metadata without failing and the
    description has no line break in it; so has the description of every
    instance the loader makes. *)
Theorem description_one_line :
  (∀ testDoc fixtureDoc name class methodName,
     ∃ md, _setupMetaData testDoc fixtureDoc name class methodName = Some md ∧
           one_line (md_description md)) ∧
  (∀ c n t, instantiate c n = Some t → one_line (describe t)).
Proof.
  split.
  - intros testDoc fixtureDoc name class methodName.
    destruct (_setupMetaData testDoc fixtureDoc name class methodName)
      as [md|] eqn:Hmd.
    + exists md. split; [done|]. by eapply _setupMetaData_one_line.
    + exfalso.
      destruct (part_of_is_Some testDoc) as [td Htd].
      destruct (part_of_is_Some fixtureDoc) as [fd Hfd].
      unfold _setupMetaData in Hmd. unfold part_of in Htd, Hfd.
      by rewrite Htd, Hfd in Hmd.
  - intros c n t. unfold instantiate. intros H.
    destruct (getattr c n) as [m|]; [|done]. cbn in H.
    destruct (_setupMetaData _ _ _ _ _) as [md|] eqn:Hmd; [|done]. cbn in H.
    injection H as <-. unfold describe. cbn [_description].
    by eapply _setupMetaData_one_line.
Qed.

(** ** What a run records *)

Lemma __exc_info_spec (p : string) (e : exc_info) :
  exctype (__exc_info p e) = exctype e ∧
  excvalue (__exc_info p e) = excvalue e ∧
  (tb (__exc_info p e) = tb e ∨
   ∃ frame, tb e = Traceback frame (Some (tb (__exc_info p e)))) ∧
  (String.substring 0 4 p = "java" → __exc_info p e = e) ∧
  (String.substring 0 4 p ≠ "java" →
   ∀ frame newtb, tb e = Traceback frame (Some newtb) →
                  tb (__exc_info p e) = newtb).
Proof.
  unfold __exc_info. case_decide as Hp.
  - split; [done|]. split; [done|]. split; [by left|]. split; done.
  - destruct (tb e) as [frame [newtb|]] eqn:Htb; cbn.
    + split; [done|]. split; [done|]. split; [right; by exists frame|].
      split; [done|]. intros _ ?? [= _ <-]. done.
    + split; [done|]. split; [done|]. split; [by left|].
      split; [done|]. intros _ ?? [=].
Qed.

(** X16: a run of a test case only appends to the collector's two lists,
    at most one failure and at most two entries in all, each for the test
    case itself and for an exception one of its hooks raised: the class and
    the value are those raised, and the traceback is the raised one or, off
    Jython, the one below its top frame. *)
Theorem recorded_entries (t : TestCase) (w : world) :
  let p := sys_platform w in
  let r' := result (exec (__call__ t) w) in
  ∃ fs es,
    failures r' = failures (result w) ++ fs ∧
    errors r' = errors (result w) ++ es ∧
    length fs ≤ 1 ∧ length (fs ++ es) ≤ 2 ∧
    (fs ++ es = [] ↔ passes t = true) ∧
    ∀ entry, entry ∈ fs ++ es →
      entry.1 = t ∧
      ∃ e, (setUp t = Some e ∨
            setUp t = None ∧ (_testMethod t = Some e ∨ tearDown t = Some e)) ∧
           exctype entry.2 = exctype e ∧ excvalue entry.2 = excvalue e ∧
           (tb entry.2 = tb e ∨
            ∃ frame, tb e = Traceback frame (Some (tb entry.2))) ∧
           (String.substring 0 4 p = "java" → entry.2 = e).
Proof.
  cbn zeta. destruct (__call___spec t w) as (_ & _ & Hf & He & _).
  exists (new_failures (sys_platform w) t), (new_errors (sys_platform w) t).
  split; [done|]. split; [done|].
  unfold new_failures, new_errors, passes, is_failure, raised_by.
  split; [|split; [|split]].
  - destruct (setUp t), (_testMethod t); try destruct (issubclass _ _);
      cbn; lia.
  - destruct (setUp t), (_testMethod t), (tearDown t);
      try destruct (issubclass _ _); cbn; lia.
  - destruct (setUp t), (_testMethod t), (tearDown t);
      try destruct (issubclass _ _); cbn; split; done.
  - intros [t' e'] Hin. cbn [fst snd].
    assert (∃ e, (setUp t = Some e ∨
                  setUp t = None ∧ (_testMethod t = Some e ∨ tearDown t = Some e)) ∧
                 (t', e') = (t, __exc_info (sys_platform w) e))
      as (e & Hwhere & [= -> ->]).
    { destruct (setUp t) as [su|], (_testMethod t) as [tm|],
        (tearDown t) as [td|]; try destruct (issubclass _ _);
        cbn in Hin;
        repeat (apply elem_of_cons in Hin as [Hin|Hin]);
        try (by apply elem_of_nil in Hin); eauto 6. }
    split; [done|]. exists e. split; [done|].
    destruct (__exc_info_spec (sys_platform w) e) as (? & ? & ? & ? & _).
    done.
Qed.

(** ** Loading a module *)

Lemma load_loop_spec (self : TestLoader) (module : py_module)
    (names : list string) (acc : list Test) :
  foldl (λ acc name,
           tests ← acc;
           match module !! name with
           | Some (MFixture obj) =>
               s ← loadTestsFromTestCase self obj;
               Some (tests ++ [ASuite s])
           | _ => Some tests
           end) (Some acc) names =
  (λ l, acc ++ (ASuite <$> l)) <$>
    mapM (loadTestsFromTestCase self) (classes_in module names).
Proof.
  revert acc. induction names as [|name names IH]; intros acc.
  - cbn. by rewrite app_nil_r.
  - cbn [foldl classes_in omap list_omap]. fold (classes_in module names).
    destruct (module !! name) as [[c|]|]; cbn [mbind option_bind]; try apply IH.
    destruct (loadTestsFromTestCase_spec self c) as (s & Hs & _).
    rewrite Hs. cbn [mbind option_bind]. rewrite IH.
    cbn [mapM]. rewrite Hs. cbn [mbind option_bind].
    destruct (mapM _ _) as [l|]; [|done]. cbn. by rewrite <- app_assoc.
Qed.

Lemma flat_cases_ASuite (l : list TestSuite) :
  flat_cases (ASuite <$> l) = mjoin (cases_of <$> l).
Proof.
  unfold flat_cases. induction l as [|s l IH]; [done|].
  cbn [fmap list_fmap flat_map mjoin list_join Test_cases]. by rewrite IH.
Qed.

(** X17: [loadTestsFromModule] always succeeds.  Its suite has no name and
    holds one suite per name of the module that is bound to a test case
    class, in the alphabetical order of those names, each of them the suite
    [loadTestsFromTestCase] makes for the class; so the test methods run
    class by class, and a class bound to two names is loaded, counted and
    run twice.  When no class has an empty name, each class is found
    under its name. *)
Theorem module_suite (self : TestLoader) (module : py_module) :
  ∃ s suites,
    loadTestsFromModule self module = Some s ∧
    suiteName s = None ∧
    _tests s = ASuite <$> suites ∧
    Forall2 (λ c s', loadTestsFromTestCase self c = Some s')
      (classes_of module) suites ∧
    _testMethodName <$> cases_of s =
      mjoin (getTestCaseNames self <$> classes_of module) ∧
    countTestCases s =
      sum_list_with (λ c, length (getTestCaseNames self c)) (classes_of module) ∧
    ((∀ c, c ∈ classes_of module → c_name c ≠ "") →
     ∀ c, c ∈ classes_of module →
          ∃ s', getTestForName s (c_name c) = Some (ASuite s') ∧
                s' ∈ suites ∧ suiteName s' = Some (c_name c)).
Proof.
  unfold loadTestsFromModule. rewrite (load_loop_spec self module _ []).
  fold (classes_of module).
  destruct (mapM (loadTestsFromTestCase self) (classes_of module))
    as [suites|] eqn:Hm.
  2:{ exfalso. apply eq_None_not_Some in Hm. apply Hm, mapM_is_Some.
      apply Forall_forall. intros c _.
      destruct (loadTestsFromTestCase_spec self c) as (s & Hs & _).
      unfold compose. rewrite Hs. by eexists. }
  apply mapM_Some_1 in Hm. cbn [fmap option_fmap option_map mbind option_bind app].
  exists (TestSuite_init (suiteClass self) (ASuite <$> suites) None), suites.
  split; [reflexivity|].
  assert (Forall2 (λ c s', _testMethodName <$> cases_of s' = getTestCaseNames self c ∧
                           suiteName s' = Some (c_name c))
            (classes_of module) suites) as Hspec.
  { eapply Forall2_impl; [exact Hm|]. intros c s' Hs'. cbn in Hs'.
    destruct (loadTestsFromTestCase_spec self c) as (s0 & Hs0 & ? & ?).
    rewrite Hs0 in Hs'. by injection Hs' as <-. }
  assert (_testMethodName <$> mjoin (cases_of <$> suites) =
          mjoin (getTestCaseNames self <$> classes_of module)) as Hnames.
  { clear Hm. induction Hspec as [|c s' cs ss [Hc _] _ IH]; [done|].
    change (_testMethodName <$> (cases_of s' ++ mjoin (cases_of <$> ss)) =
            getTestCaseNames self c ++ mjoin (getTestCaseNames self <$> cs)).
    by rewrite fmap_app, Hc, IH. }
  split; [unfold TestSuite_init; by rewrite addTests_suiteName|].
  split; [apply TestSuite_init_tests|]. split; [done|].
  split; [by rewrite cases_of_tests, TestSuite_init_tests, flat_cases_ASuite|].
  split.
  - rewrite countTestCases_length, cases_of_tests, TestSuite_init_tests,
      flat_cases_ASuite.
    rewrite <- (length_fmap _testMethodName), Hnames.
    clear. induction (classes_of module) as [|c cs IH]; [done|].
    change (length (getTestCaseNames self c ++
                    mjoin (getTestCaseNames self <$> cs)) =
            length (getTestCaseNames self c) +
            sum_list_with (λ c, length (getTestCaseNames self c)) cs).
    by rewrite length_app, IH.
  - intros Hnamed c Hc. pose proof (Hnamed c Hc) as Hname.
    rewrite getTestForName_init.
    apply list_elem_of_lookup in Hc as [i Hi].
    destruct (Forall2_lookup_l _ _ _ _ _ Hspec Hi) as (s0 & Hs0 & _ & Hn0).
    destruct (last (filter (λ t, key_of t = c_name c) (ASuite <$> suites)))
      as [x|] eqn:Hlast.
    + apply last_Some_elem_of, list_elem_of_filter in Hlast as [Hk Hx].
      apply list_elem_of_fmap in Hx as (s' & -> & Hs').
      exists s'. split; [done|]. split; [done|].
      apply list_elem_of_lookup in Hs' as [j Hj].
      destruct (Forall2_lookup_r _ _ _ _ _ Hspec Hj) as (c' & Hc' & _ & Hn').
      cbn in Hk. rewrite Hn' in Hk.
      rewrite decide_False in Hk
        by (eapply Hnamed, list_elem_of_lookup_2, Hc').
      by rewrite Hk in Hn'.
    + exfalso.
      pose proof (proj1 (last_filter_None (ASuite <$> suites) (c_name c)) Hlast)
        as Hno.
      apply (Hno (ASuite s0)).
      * apply list_elem_of_fmap_2. by eapply list_elem_of_lookup_2.
      * cbn. rewrite Hn0. by rewrite decide_False.
Qed.
